(** * Vas2Nets SMS transport: a shallow embedding of [vxvas2nets/vas2nets_sms.py]

    The transport bridges the vendor's HTTP API and the vumi message bus.
    Python dictionaries are finite maps ([gmap string value]), frozensets are
    finite sets ([gset string]), byte strings are [string]s, exceptions are an
    explicit error result, and the calls the transport makes on its
    collaborators (bus, HTTP server, HTTP client, status reporting, log) are
    recorded, in call order, in a trace of events. *)

From Stdlib Require Import String Ascii ZArith List Lia.
From stdpp Require Import gmap strings list fin_maps.
Import ListNotations.

Local Set Warnings "-register-all".
Local Open Scope string_scope.

(** ** Python values and results *)

Module Py.

(** The dynamically typed values that travel in messages, parameters and
    JSON bodies. *)
Inductive value : Type :=
| VNone
| VBool (b : bool)
| VInt (n : Z)
| VStr (s : string)
| VList (l : list value)
| VDict (d : gmap string value).

(** The exceptions that occur in the transport. *)
Inductive exn : Type :=
| KeyError (key : string)
| AttributeError
| UnicodeDecodeError
| ResponseNeverReceived
| ConnectingCancelledError
| CancelledError
| OtherError (name : string).

(** A computation either returns or raises. *)
Inductive result (A : Type) : Type :=
| Ok (a : A)
| Raise (e : exn).

Arguments Ok {A} a.
Arguments Raise {A} e.

(** [bool(v)]: Python truthiness, as used by [if errors:]. *)
Definition truthy (v : value) : bool :=
  match v with
  | VNone => false
  | VBool b => b
  | VInt n => negb (n =? 0)%Z
  | VStr s => negb (String.eqb s "")
  | VList l => match l with [] => false | _ => true end
  | VDict d => negb (bool_decide (d = ∅))
  end.

(** [d[key]]: subscription raises [KeyError] on an absent key. *)
Definition getitem (d : gmap string value) (key : string) : result value :=
  match d !! key with
  | Some v => Ok v
  | None => Raise (KeyError key)
  end.

(** [v.get(key)]: [None] for an absent key; an object that is not a mapping
    has no [get]. *)
Definition get (v : value) (key : string) : result value :=
  match v with
  | VDict d => Ok (default VNone (d !! key))
  | _ => Raise AttributeError
  end.

End Py.

Import Py.

(** ** The nested accessor (module level function [get_in]) *)

Fixpoint get_in (data : value) (keys : list string) : result value :=
  match keys with
  | [] => Ok data
  | key :: keys' =>
      match get data key with
      | Raise e => Raise e
      | Ok VNone => Ok VNone
      | Ok data' => get_in data' keys'
      end
  end.

(** ** Regular expressions, as far as [ERROR_RE] needs them

    A backtracking matcher in the style of Python's [re]: alternatives are
    tried in priority order and the first success wins.  Repetition is over
    single character sets, which is all the pattern uses. *)

Module Re.

Definition newline : ascii := ascii_of_nat 10.

Inductive charset : Type :=
| Chr (c : ascii)  (** a literal character *)
| Digit            (** [\d] on a byte string: [0-9] *)
| Dot.             (** [.] without DOTALL: anything but a newline *)

Definition is_digit (c : ascii) : bool :=
  (48 <=? nat_of_ascii c)%nat && (nat_of_ascii c <=? 57)%nat.

Definition accepts (cs : charset) (c : ascii) : bool :=
  match cs with
  | Chr a => Ascii.eqb a c
  | Digit => is_digit c
  | Dot => negb (Ascii.eqb c newline)
  end.

Inductive regex : Type :=
| Bol                              (** [^] without MULTILINE *)
| Eol                              (** [$] without MULTILINE *)
| One (cs : charset)
| Star (cs : charset)              (** greedy [*] *)
| Plus (cs : charset)              (** greedy [+] *)
| Seq (r1 r2 : regex)
| Group (name : string) (r : regex). (** [(?P<name>...)] *)

(** A literal string is the sequence of its characters. *)
Fixpoint Lit (s : string) (r : regex) : regex :=
  match s with
  | EmptyString => r
  | String c s' => Seq (One (Chr c)) (Lit s' r)
  end.

(** The groups of a match, by name. *)
Abbreviation groups := (gmap string string).

(** A continuation receives the offset reached, the text left and the groups
    captured so far. *)
Definition cont : Type := nat → string → groups → option groups.

(** [$] matches at the end of the text and just before a final newline. *)
Definition at_end (rest : string) : bool :=
  match rest with
  | EmptyString => true
  | String c EmptyString => Ascii.eqb c newline
  | _ => false
  end.

(** Greedy repetition: take a character if possible and continue; give it
    back if the continuation fails. *)
Fixpoint repeat_greedy (cs : charset) (pos : nat) (rest : string)
    (caps : groups) (k : cont) : option groups :=
  match rest with
  | String c rest' =>
      if accepts cs c then
        match repeat_greedy cs (S pos) rest' caps k with
        | Some m => Some m
        | None => k pos rest caps
        end
      else k pos rest caps
  | EmptyString => k pos rest caps
  end.

Fixpoint rmatch (r : regex) (pos : nat) (rest : string) (caps : groups)
    (k : cont) : option groups :=
  match r with
  | Bol => if Nat.eqb pos 0 then k pos rest caps else None
  | Eol => if at_end rest then k pos rest caps else None
  | One cs =>
      match rest with
      | String c rest' => if accepts cs c then k (S pos) rest' caps else None
      | EmptyString => None
      end
  | Star cs => repeat_greedy cs pos rest caps k
  | Plus cs =>
      match rest with
      | String c rest' =>
          if accepts cs c then repeat_greedy cs (S pos) rest' caps k else None
      | EmptyString => None
      end
  | Seq r1 r2 =>
      rmatch r1 pos rest caps (fun pos' rest' caps' => rmatch r2 pos' rest' caps' k)
  | Group name r1 =>
      rmatch r1 pos rest caps
        (fun pos' rest' caps' =>
           k pos' rest' (<[name := substring 0 (pos' - pos) rest]> caps'))
  end.

Definition accept : cont := fun _ _ caps => Some caps.

(** [pattern.search(text)]: the first offset, from the left, at which the
    pattern matches. *)
Fixpoint search_from (r : regex) (pos : nat) (rest : string) : option groups :=
  match rmatch r pos rest ∅ accept with
  | Some m => Some m
  | None =>
      match rest with
      | String _ rest' => search_from r (S pos) rest'
      | EmptyString => None
      end
  end.

Definition search (r : regex) (text : string) : option groups :=
  search_from r 0 text.

(** [match.group(name)]. *)
Definition group (m : groups) (name : string) : option string := m !! name.

End Re.

(** ** Collaborators

    What the transport consumes from the libraries around it. *)

Module http.
Definition OK : Z := 200.
Definition BAD_REQUEST : Z := 400.
End http.

(** The inbound request object of the HTTP server, as far as the transport
    reads it. *)
Module twisted.
Record request : Type := {
  uri : string;
  method : string;
  path : string;
  content : string;
  requestHeaders : list (string * list string)
}.
End twisted.

(** The HTTP client: a call either raises or yields a response, whose body
    is read with [resp.content()]. *)
Module treq.
Record response : Type := {
  code : Z;
  content : string
}.
Inductive outcome : Type :=
| Fails (e : exn)
| Responds (resp : response).
End treq.

(** [json.dumps(body)], kept symbolic: the text is not needed, and the call
    is taken to return. *)
Inductive json : Type :=
| json_dumps (body : value).

(** The calls on the collaborators, with their arguments. *)
Inductive event : Type :=
| log_error (text : string) (args : list value)
| finish_request (message_id : string) (body : json) (code : Z)
| add_status (component status type : string) (message : option string)
    (details : option value)
| publish_message (fields : gmap string value)
| publish_ack (user_message_id sent_message_id : value)
| publish_nack (user_message_id sent_message_id : value)
    (reason : option string)
| reject_message (message : gmap string value) (missing_fields : gset string)
| treq_get (url : string) (params : gmap string value) (timeout : option Z).

(** A handler returns or raises, and leaves the trace of its calls. *)
Module IO.

Definition io (A : Type) : Type := (result A * list event)%type.

Definition ret {A : Type} (a : A) : io A := (Ok a, []).

Definition bind {A B : Type} (c : io A) (f : A → io B) : io B :=
  match c with
  | (Ok a, t) => let '(r, t') := f a in (r, (t ++ t')%list)
  | (Raise e, t) => (Raise e, t)
  end.

(** A call on a collaborator. *)
Definition call (e : event) : io unit := (Ok tt, [e]).

(** A pure computation that may raise. *)
Definition lift {A : Type} (r : result A) : io A := (r, []).

(** The body of a [try]: what it raised is handed to the [except] clauses. *)
Definition attempt {A : Type} (c : io A) : io (result A) :=
  (Ok (fst c), snd c).

(** The calls made, in order. *)
Definition trace_of {A : Type} (c : io A) : list event := snd c.

End IO.

Import IO.

#[global] Instance io_ret : MRet io := @ret.
#[global] Instance io_bind : MBind io := fun A B f c => bind c f.

#[global] Instance result_ret : MRet result := @Ok.
#[global] Instance result_bind : MBind result :=
  fun A B f r => match r with Ok a => f a | Raise e => Raise e end.

(** ** The transport class *)

(** [Vas2NetsSmsTransportConfig]. *)
Record Vas2NetsSmsTransportConfig : Type := {
  outbound_url : string;
  outbound_request_timeout : option Z;
  username : string;
  password : string
}.

(** [ERROR_RE]: the start anchor, the group [code] holding [ERR-] and one or
    more digits, one space, the group [message] holding any run of characters
    of [.], and the end anchor. *)
Definition ERROR_RE : Re.regex :=
  Re.Seq Re.Bol
    (Re.Seq (Re.Group "code" (Re.Lit "ERR-" (Re.Plus Re.Digit)))
       (Re.Seq (Re.One (Re.Chr " "))
          (Re.Seq (Re.Group "message" (Re.Star Re.Dot)) Re.Eol))).

Definition EXPECTED_FIELDS : gset string :=
  {[ "sender"; "receiver"; "msgdata"; "recvtime"; "msgid"; "operator" ]}.

Definition EXPECTED_MESSAGE_FIELDS : gset string :=
  {[ "from_addr"; "to_addr"; "content" ]}.

Definition SEND_FAIL_TYPES : gmap string string :=
  list_to_map [
    ("ERR-11", "missing_username");
    ("ERR-12", "missing_password");
    ("ERR-13", "missing_destination");
    ("ERR-14", "missing_sender_id");
    ("ERR-15", "missing_message");
    ("ERR-21", "ender_id_too_long");
    ("ERR-33", "invalid_login");
    ("ERR-41", "insufficient_credit");
    ("ERR-70", "invalid_destination_number");
    ("ERR-51", "invalid_message_id");
    ("ERR-52", "system_error")
  ].

Definition ENCODING : string := "utf-8".

Definition transport_type : string := "sms".

(** [get_send_fail_type]: the code is a [str] or [None]; [None] is not a key
    of the table. *)
Definition get_send_fail_type (code : option string) : string :=
  default "request_fail_unknown" (code ≫= (SEND_FAIL_TYPES !!.)).

(** The status dictionary built by [get_send_status]; its entries are a
    [str] or [None]. *)
Module SendStatus.
Record send_status : Type := {
  code : option string;
  message : option string
}.
End SendStatus.

Abbreviation send_status := SendStatus.send_status.

Definition get_send_status (content : string) : send_status :=
  match Re.search ERROR_RE content with
  | None => {| SendStatus.code := None; SendStatus.message := Some content |}
  | Some m =>
      {| SendStatus.code := Re.group m "code";
         SendStatus.message := Re.group m "message" |}
  end.

(** *** Pure methods *)

Definition get_request_dict (request : twisted.request) : gmap string value :=
  {[ "uri" := VStr (twisted.uri request);
     "method" := VStr (twisted.method request);
     "path" := VStr (twisted.path request);
     "content" := VStr (twisted.content request);
     "headers" :=
       VDict (foldl (fun d '(name, vals) => <[name := VList (VStr <$> vals)]> d)
                ∅ (twisted.requestHeaders request)) ]}.

Definition get_message_dict (message_id : string) (vals : gmap string value)
    : result (gmap string value) :=
  sender ← getitem vals "sender";
  receiver ← getitem vals "receiver";
  msgdata ← getitem vals "msgdata";
  operator ← getitem vals "operator";
  msgid ← getitem vals "msgid";
  mret ({[ "message_id" := VStr message_id;
           "from_addr" := sender;
           "from_addr_type" := VStr "msisdn";
           "to_addr" := receiver;
           "content" := msgdata;
           "provider" := operator;
           "transport_type" := VStr transport_type;
           "transport_metadata" :=
             VDict {[ "vas2nets_sms" := VDict {[ "msgid" := msgid ]} ]} ]}
        : gmap string value).

Definition get_send_params (config : Vas2NetsSmsTransportConfig)
    (message : gmap string value) : result (gmap string value) :=
  from_addr ← getitem message "from_addr";
  to_addr ← getitem message "to_addr";
  content ← getitem message "content";
  let params : gmap string value :=
    {[ "username" := VStr (username config);
       "password" := VStr (password config);
       "sender" := from_addr;
       "receiver" := to_addr;
       "message" := content ]} in
  id ← get_in (VDict message) ["transport_metadata"; "vas2nets_sms"; "msgid"];
  match id with
  | VNone => mret params
  | _ => mret (<["message_id" := id]> params)
  end.

(** Modelled from the spec: emptiness of a field value for the Field
    Validator, which takes a field as given when it is "present and
    individually non-empty".  The validator is [ensure_message_values] of
    vumi's [HttpRpcTransport], whose source is not part of the repository. *)
Definition value_empty (v : value) : bool :=
  match v with
  | VNone => true
  | VStr s => String.eqb s ""
  | VList l => match l with [] => true | _ => false end
  | VDict d => bool_decide (d = ∅)
  | _ => false
  end.

(** Modelled from the spec: a name is reported by the Field Validator when
    it is "missing or empty" in the message. *)
Definition missing_or_empty (message : gmap string value) (field : string)
    : bool :=
  match message !! field with
  | None => true
  | Some v => value_empty v
  end.

(** Modelled from the spec: the Field Validator on a bus message
    ([ensure_message_values] of the base transport) returns "the set of
    names that are missing or empty" among the required ones, and never
    raises. *)
Definition ensure_message_values (message : gmap string value)
    (expected_fields : gset string) : gset string :=
  filter (fun field => missing_or_empty message field = true) expected_fields.

(** *** Methods that call the collaborators *)

(** [body] defaults to [None], which stands for the empty object. *)
Definition respond (message_id : string) (code : Z) (body : value) : io unit :=
  let body := match body with VNone => VDict ∅ | _ => body end in
  call (finish_request message_id (json_dumps body) code).

(** [reply] is what the HTTP client answers once the request is issued. *)
Definition send_message (config : Vas2NetsSmsTransportConfig)
    (message : gmap string value) (reply : treq.outcome) : io treq.response :=
  params ← lift (get_send_params config message);
  call (treq_get (outbound_url config) params
          (outbound_request_timeout config));;
  match reply with
  | treq.Fails e => lift (Raise e)
  | treq.Responds resp => mret resp
  end.

Definition handle_decode_error (message_id : string)
    (request : twisted.request) : io unit :=
  let req := get_request_dict request in
  call (log_error "Bad request encoding: %r" [VDict req]);;
  respond message_id http.BAD_REQUEST
    (VDict {[ "invalid_request" := VDict req ]});;
  call (add_status "inbound" "down" "request_decode_error"
          (Some "Bad request encoding")
          (Some (VDict {[ "request" := VDict req ]}))).

Definition handle_bad_request_fields (message_id : string)
    (request : twisted.request) (errors : value) : io unit :=
  let req := get_request_dict request in
  call (log_error "Bad request fields for inbound message: %s %s"
          [errors; VDict req]);;
  respond message_id http.BAD_REQUEST errors;;
  call (add_status "inbound" "down" "request_bad_fields"
          (Some "Bad request fields")
          (Some (VDict {[ "request" := VDict req; "errors" := errors ]}))).

Definition handle_inbound_message (message_id : string)
    (request : twisted.request) (vals : gmap string value) : io unit :=
  fields ← lift (get_message_dict message_id vals);
  call (publish_message fields);;
  respond message_id http.OK (VDict ∅);;
  call (add_status "inbound" "ok" "request_success"
          (Some "Request successful") None).

(** [field_values] is what [self.get_field_values(request, EXPECTED_FIELDS)]
    of the base transport gives for the request: the decoded values and the
    errors, or the exception it raises. *)
Definition handle_raw_inbound_message (message_id : string)
    (request : twisted.request)
    (field_values : result (gmap string value * value)) : io unit :=
  match field_values with
  | Raise UnicodeDecodeError => handle_decode_error message_id request
  | Raise e => lift (Raise e)
  | Ok (vals, errors) =>
      if truthy errors
      then handle_bad_request_fields message_id request errors
      else handle_inbound_message message_id request vals
  end.

Definition handle_send_timeout (message : gmap string value) : io unit :=
  user_message_id ← lift (getitem message "message_id");
  sent_message_id ← lift (getitem message "message_id");
  call (publish_nack user_message_id sent_message_id (Some "Request timeout"));;
  call (add_status "outbound" "down" "request_timeout"
          (Some "Request timeout") None).

Definition handle_outbound_success (message : gmap string value) : io unit :=
  user_message_id ← lift (getitem message "message_id");
  sent_message_id ← lift (getitem message "message_id");
  call (publish_ack user_message_id sent_message_id);;
  call (add_status "outbound" "ok" "request_success"
          (Some "Request successful") None).

Definition handle_outbound_fail (message : gmap string value)
    (status : send_status) : io unit :=
  user_message_id ← lift (getitem message "message_id");
  sent_message_id ← lift (getitem message "message_id");
  call (publish_nack user_message_id sent_message_id
          (SendStatus.message status));;
  call (add_status "outbound" "down"
          (get_send_fail_type (SendStatus.code status))
          (SendStatus.message status) None).

(** The exceptions of the [except] clause around the send. *)
Definition is_send_timeout (e : exn) : bool :=
  match e with
  | ResponseNeverReceived | ConnectingCancelledError | CancelledError => true
  | _ => false
  end.

Definition handle_outbound_message (config : Vas2NetsSmsTransportConfig)
    (message : gmap string value) (reply : treq.outcome) : io unit :=
  let missing_fields :=
    ensure_message_values message EXPECTED_MESSAGE_FIELDS in
  if bool_decide (missing_fields ≠ ∅)
  then call (reject_message message missing_fields)
  else
    sent ← attempt (send_message config message reply);
    match sent with
    | Raise e =>
        if is_send_timeout e then handle_send_timeout message
        else lift (Raise e)
    | Ok resp =>
        let content := treq.content resp in
        let status := get_send_status content in
        if bool_decide (treq.code resp = http.OK)
           && bool_decide (SendStatus.code status = None)
        then handle_outbound_success message
        else handle_outbound_fail message status
    end.

(** ** Shapes of texts, for the statements about the classifier *)

(** Every character of the string satisfies [p]. *)
Fixpoint all_chars (p : ascii → bool) (s : string) : bool :=
  match s with
  | EmptyString => true
  | String c s' => p c && all_chars p s'
  end.

(** The string begins with a character that satisfies [p]. *)
Definition head_in (p : ascii → bool) (s : string) : bool :=
  match s with
  | EmptyString => false
  | String c _ => p c
  end.

(** The longest prefix of characters satisfying [p], and what follows it. *)
Fixpoint span (p : ascii → bool) (s : string) : string * string :=
  match s with
  | EmptyString => (EmptyString, EmptyString)
  | String c s' =>
      if p c then (String c (fst (span p s')), snd (span p s'))
      else (EmptyString, s)
  end.

(** What follows the prefix [pre], when the string begins with it. *)
Fixpoint strip_prefix (pre s : string) : option string :=
  match pre, s with
  | EmptyString, _ => Some s
  | String a pre', String c s' =>
      if Ascii.eqb a c then strip_prefix pre' s' else None
  | String _ _, EmptyString => None
  end.

Definition not_newline (c : ascii) : bool := negb (Ascii.eqb c Re.newline).

(** The text of an error report: the code [ERR-] and digits, a space, a
    message of one line, and possibly a final newline. *)
Definition error_report (content ds msg tail : string) : Prop :=
  content = "ERR-" +:+ ds +:+ " " +:+ msg +:+ tail
  ∧ ds ≠ ""
  ∧ all_chars Re.is_digit ds = true
  ∧ all_chars not_newline msg = true
  ∧ (tail = "" ∨ tail = String Re.newline "").

(** The pattern read from left to right: the code and the message of an
    error report, if the text is one. *)
Definition parse_error (content : string) : option (string * string) :=
  match strip_prefix "ERR-" content with
  | None => None
  | Some s =>
      match fst (span Re.is_digit s), snd (span Re.is_digit s) with
      | String d ds, String c r =>
          if Ascii.eqb " " c && Re.at_end (snd (span not_newline r))
          then Some ("ERR-" +:+ String d ds, fst (span not_newline r))
          else None
      | _, _ => None
      end
  end.

(** ** Paths in nested mappings, for the statements about [get_in] *)

(** Looking up the keys in order, each lookup finding a value that is not
    [None], leads from [data] to [r]. *)
Inductive reaches : value → list string → value → Prop :=
| reaches_here (v : value) : reaches v [] v
| reaches_step (d : gmap string value) key keys v r :
    d !! key = Some v → v ≠ VNone → reaches v keys r →
    reaches (VDict d) (key :: keys) r.

(** Some lookup on the way finds the key absent, or finds [None]. *)
Inductive breaks : value → list string → Prop :=
| breaks_absent (d : gmap string value) key keys :
    d !! key = None → breaks (VDict d) (key :: keys)
| breaks_null (d : gmap string value) key keys :
    d !! key = Some VNone → breaks (VDict d) (key :: keys)
| breaks_step (d : gmap string value) key keys v :
    d !! key = Some v → v ≠ VNone → breaks v keys →
    breaks (VDict d) (key :: keys).

(** Some value on the way, with keys left to look up, is not a mapping. *)
Inductive stuck : value → list string → Prop :=
| stuck_here v key keys :
    (∀ d, v ≠ VDict d) → stuck v (key :: keys)
| stuck_step (d : gmap string value) key keys v :
    d !! key = Some v → v ≠ VNone → stuck v keys →
    stuck (VDict d) (key :: keys).

(** Where [get_send_params] looks for the vendor's message id. *)
Definition msgid_path : list string :=
  ["transport_metadata"; "vas2nets_sms"; "msgid"].

(** The text begins with the code [ERR-ds], and [r] is what follows the
    digits. *)
Definition code_then (content ds r : string) : Prop :=
  content = "ERR-" +:+ ds +:+ r
  ∧ ds ≠ ""
  ∧ all_chars Re.is_digit ds = true
  ∧ head_in Re.is_digit r = false.

(** The codes of the vendor conditions named by the specification, with
    the tags of the table. *)
Definition vendor_conditions : list (string * string) :=
  [ ("ERR-11", "missing_username");
    ("ERR-12", "missing_password");
    ("ERR-13", "missing_destination");
    ("ERR-14", "missing_sender_id");
    ("ERR-15", "missing_message");
    ("ERR-21", "ender_id_too_long");
    ("ERR-33", "invalid_login");
    ("ERR-41", "insufficient_credit");
    ("ERR-70", "invalid_destination_number");
    ("ERR-51", "invalid_message_id");
    ("ERR-52", "system_error") ].

(** The five query parameters of every send. *)
Definition fixed_params (config : Vas2NetsSmsTransportConfig)
    (from_addr to_addr content : value) : gmap string value :=
  {[ "username" := VStr (username config);
     "password" := VStr (password config);
     "sender" := from_addr;
     "receiver" := to_addr;
     "message" := content ]}.

(** The one HTTP call of a send, for the parameters built. *)
Definition issued (config : Vas2NetsSmsTransportConfig)
    (params : gmap string value) : event :=
  treq_get (outbound_url config) params (outbound_request_timeout config).

(** The response counts as a success. *)
Definition send_succeeded (resp : treq.response) : Prop :=
  treq.code resp = http.OK
  ∧ SendStatus.code (get_send_status (treq.content resp)) = None.

(** ** Counting calls in a trace *)

Definition is_add_status (e : event) : bool :=
  match e with
  | add_status _ _ _ _ _ => true
  | _ => false
  end.

Definition is_treq_get (e : event) : bool :=
  match e with
  | treq_get _ _ _ => true
  | _ => false
  end.

(** The number of health-status events of a trace. *)
Definition status_events (t : list event) : nat :=
  length (List.filter is_add_status t).

(** The number of HTTP calls to the vendor of a trace. *)
Definition http_calls (t : list event) : nat :=
  length (List.filter is_treq_get t).

(** ** Sample inputs *)

Definition sample_config : Vas2NetsSmsTransportConfig :=
  {| outbound_url := "http://vendor.example/send";
     outbound_request_timeout := Some 30%Z;
     username := "user";
     password := "secret" |}.

(** A reply to an inbound message: it carries the vendor's message id. *)
Definition sample_message : gmap string value :=
  {[ "message_id" := VStr "m-1";
     "from_addr" := VStr "9292";
     "to_addr" := VStr "+27831234567";
     "content" := VStr "hello";
     "transport_metadata" :=
       VDict {[ "vas2nets_sms" := VDict {[ "msgid" := VStr "7" ]} ]} ]}.

Definition sample_params : gmap string value :=
  <["message_id" := VStr "7"]>
    (fixed_params sample_config (VStr "9292") (VStr "+27831234567")
       (VStr "hello")).

(** The same message without a destination. *)
Definition sample_message_no_to_addr : gmap string value :=
  <["to_addr" := VNone]> sample_message.

(** An inbound request and the fields read from it. *)
Definition sample_request : twisted.request :=
  {| twisted.uri := "/api/v1/vas2nets/sms/?sender=%2B27831234567";
     twisted.method := "GET";
     twisted.path := "/api/v1/vas2nets/sms/";
     twisted.content := "";
     twisted.requestHeaders := [("Host", ["localhost"])] |}.

Definition sample_vals : gmap string value :=
  {[ "sender" := VStr "+27831234567";
     "receiver" := VStr "9292";
     "msgdata" := VStr "hello";
     "recvtime" := VStr "2012-02-27 19-50-12";
     "msgid" := VStr "7";
     "operator" := VStr "MTN" ]}.

(** ** Units of work and their error outcomes *)

(** A unit of work: an inbound request with what the field validator of the
    base transport read from it, or an outbound message with what the vendor
    answers. *)
Inductive unit_of_work : Type :=
| Inbound (message_id : string) (request : twisted.request)
    (field_values : result (gmap string value * value))
| Outbound (message : gmap string value) (reply : treq.outcome).

Definition process (config : Vas2NetsSmsTransportConfig) (u : unit_of_work)
    : io unit :=
  match u with
  | Inbound message_id request field_values =>
      handle_raw_inbound_message message_id request field_values
  | Outbound message reply => handle_outbound_message config message reply
  end.



(** The errors of the field validator for a request with a parameter that
    the transport does not expect. *)
Definition sample_unexpected : value :=
  VDict {[ "unexpected_parameter" := VList [VStr "extra"] ]}.


(** ** More counts on traces *)

Definition is_finish_request (e : event) : bool :=
  match e with
  | finish_request _ _ _ => true
  | _ => false
  end.

Definition is_publish_message (e : event) : bool :=
  match e with
  | publish_message _ => true
  | _ => false
  end.

(** What the bus hears about an outbound message: an acknowledgement, a
    negative acknowledgement or a rejection. *)
Definition is_bus_outcome (e : event) : bool :=
  match e with
  | publish_ack _ _ | publish_nack _ _ _ | reject_message _ _ => true
  | _ => false
  end.

(** The number of answers to the HTTP caller in a trace. *)
Definition responses (t : list event) : nat :=
  length (List.filter is_finish_request t).

(** The number of bus messages published in a trace. *)
Definition published (t : list event) : nat :=
  length (List.filter is_publish_message t).

(** The number of outcomes told to the bus in a trace. *)
Definition bus_outcomes (t : list event) : nat :=
  length (List.filter is_bus_outcome t).

(** The component tags of the health-status events of a trace. *)
Definition status_components (t : list event) : list string :=
  omap (fun e => match e with
                 | add_status component _ _ _ _ => Some component
                 | _ => None
                 end) t.

(** The pipeline of a unit of work, as health-status events name it. *)
Definition pipeline (u : unit_of_work) : string :=
  match u with
  | Inbound _ _ _ => "inbound"
  | Outbound _ _ => "outbound"
  end.

(** The runs of the outbound handler, by what they leave in the trace. *)
Inductive outbound_run (config : Vas2NetsSmsTransportConfig)
    (message : gmap string value) : io unit → Prop :=
| run_rejected missing :
    outbound_run config message (Ok tt, [reject_message message missing])
| run_not_sent e :
    outbound_run config message (Raise e, [])
| run_sent_raised params e :
    outbound_run config message (Raise e, [issued config params])
| run_acked params mid :
    outbound_run config message
      (Ok tt,
       [issued config params;
        publish_ack mid mid;
        add_status "outbound" "ok" "request_success"
          (Some "Request successful") None])
| run_nacked params mid reason type :
    outbound_run config message
      (Ok tt,
       [issued config params;
        publish_nack mid mid reason;
        add_status "outbound" "down" type reason None]).

(** The runs of the inbound handler, by what they leave in the trace. *)
Inductive inbound_run (message_id : string) : io unit → Prop :=
| run_refused text args body type message details :
    inbound_run message_id
      (Ok tt,
       [log_error text args;
        finish_request message_id body http.BAD_REQUEST;
        add_status "inbound" "down" type message details])
| run_published fields :
    inbound_run message_id
      (Ok tt,
       [publish_message fields;
        finish_request message_id (json_dumps (VDict ∅)) http.OK;
        add_status "inbound" "ok" "request_success"
          (Some "Request successful") None])
| run_raised e :
    inbound_run message_id (Raise e, []).

(** The values that [get_message_dict] reads. *)
Definition message_dict_fields : list string :=
  ["sender"; "receiver"; "msgdata"; "operator"; "msgid"].

(** More sample inputs: a message whose vendor metadata are a string, and a
    message without its id. *)
Definition sample_message_bad_metadata : gmap string value :=
  <["transport_metadata" := VDict {[ "vas2nets_sms" := VStr "7" ]}]>
    sample_message.

Definition sample_message_no_id : gmap string value :=
  delete "message_id" sample_message.

(** The bus message published for [sample_vals]. *)
Definition sample_published : gmap string value :=
  {[ "message_id" := VStr "req-1";
     "from_addr" := VStr "+27831234567";
     "from_addr_type" := VStr "msisdn";
     "to_addr" := VStr "9292";
     "content" := VStr "hello";
     "provider" := VStr "MTN";
     "transport_type" := VStr "sms";
     "transport_metadata" :=
       VDict {[ "vas2nets_sms" := VDict {[ "msgid" := VStr "7" ]} ]} ]}.

(** * Properties *)

(** Decide a closed proposition by evaluating its decision procedure. *)
Ltac by_evaluation := apply (bool_decide_unpack _); vm_compute; exact I.

(** One lookup of a path in a closed mapping. *)
Ltac lookup_step := eapply reaches_step; [reflexivity|discriminate|].

(** ** Facts on strings *)

Section Spans.

Variable p : ascii → bool.

Lemma span_app (s : string) :
  s = fst (span p s) +:+ snd (span p s)
  ∧ all_chars p (fst (span p s)) = true
  ∧ head_in p (snd (span p s)) = false.
Proof.
  induction s as [|c s IH]; simpl; [done|].
  destruct (p c) eqn:Hc; simpl; [|done].
  destruct IH as (Hs & Ha & Hb).
  split_and!; [by rewrite Hs at 1 | by rewrite Hc, Ha | done].
Qed.

Lemma span_unique (a b : string) :
  all_chars p a = true → head_in p b = false → span p (a +:+ b) = (a, b).
Proof.
  intros Ha Hb. induction a as [|c a IH]; simpl in *.
  - destruct b as [|c b]; [done|]. simpl in *. by rewrite Hb.
  - apply andb_prop in Ha as [-> Ha]. by rewrite (IH Ha).
Qed.

End Spans.

Lemma substring_prefix (a b : string) :
  substring 0 (String.length a) (a +:+ b) = a.
Proof.
  induction a as [|c a IH]; simpl.
  - by destruct b.
  - by rewrite IH.
Qed.

Lemma string_app_cons (x : ascii) (a b : string) :
  String x a +:+ b = String x (a +:+ b).
Proof. reflexivity. Qed.

Lemma string_app_assoc (a b c : string) :
  (a +:+ b) +:+ c = a +:+ (b +:+ c).
Proof.
  induction a as [|x a IH]; [done|]. by rewrite !string_app_cons, IH.
Qed.

Lemma string_app_length (a b : string) :
  String.length (a +:+ b) = String.length a + String.length b.
Proof.
  induction a as [|x a IH]; [done|]. rewrite string_app_cons. simpl.
  by rewrite IH.
Qed.

Lemma strip_prefix_Some (pre s r : string) :
  strip_prefix pre s = Some r ↔ s = pre +:+ r.
Proof.
  revert s. induction pre as [|a pre IH]; intros s; simpl.
  - split; [by intros [= ->]|by intros ->].
  - destruct s as [|c s]; [done|].
    destruct (Ascii.eqb_spec a c) as [->|Hne].
    + rewrite IH. simpl. split; [by intros ->|by intros [=]].
    + simpl. split; [done|]. by intros [=].
Qed.

Lemma at_end_spec (tail : string) :
  Re.at_end tail = true ↔ tail = "" ∨ tail = String Re.newline "".
Proof.
  destruct tail as [|c [|c' tail]]; simpl.
  - by split; [left|].
  - rewrite Ascii.eqb_eq. split; [by intros ->; right|by intros [|[=]]].
  - by split; [|intros [|]].
Qed.

Lemma digit_not_space (c : ascii) :
  Re.is_digit c = true → Ascii.eqb " " c = false.
Proof.
  intros Hc. destruct (Ascii.eqb_spec " " c) as [<-|]; [|done].
  by vm_compute in Hc.
Qed.

(** ** The matcher on [ERROR_RE] *)

(** Greedy repetition stops after the longest run when the continuation
    cannot go on from a character of the set. *)
Lemma repeat_greedy_span cs pos rest caps (k : Re.cont) :
  (∀ pos' rest' caps',
     head_in (Re.accepts cs) rest' = true → k pos' rest' caps' = None) →
  Re.repeat_greedy cs pos rest caps k =
    k (pos + String.length (fst (span (Re.accepts cs) rest)))
      (snd (span (Re.accepts cs) rest)) caps.
Proof.
  intros Hk. revert pos.
  induction rest as [|c rest IH]; intros pos; simpl.
  - by rewrite Nat.add_0_r.
  - destruct (Re.accepts cs c) eqn:Hc; simpl.
    + rewrite IH, Nat.add_succ_r.
      destruct (k _ _ caps) eqn:Hgo; [done|].
      apply Hk. simpl. exact Hc.
    + by rewrite Nat.add_0_r.
Qed.

Lemma rmatch_Plus_span cs pos rest caps (k : Re.cont) :
  (∀ pos' rest' caps',
     head_in (Re.accepts cs) rest' = true → k pos' rest' caps' = None) →
  Re.rmatch (Re.Plus cs) pos rest caps k =
    match fst (span (Re.accepts cs) rest) with
    | EmptyString => None
    | run =>
        k (pos + String.length run) (snd (span (Re.accepts cs) rest)) caps
    end.
Proof.
  intros Hk. destruct rest as [|c rest]; simpl; [done|].
  destruct (Re.accepts cs c); simpl; [|done].
  by rewrite repeat_greedy_span, Nat.add_succ_r.
Qed.

Lemma rmatch_Lit pre r pos rest caps (k : Re.cont) :
  Re.rmatch (Re.Lit pre r) pos rest caps k =
    match strip_prefix pre rest with
    | Some rest' => Re.rmatch r (pos + String.length pre) rest' caps k
    | None => None
    end.
Proof.
  revert pos rest. induction pre as [|a pre IH]; intros pos rest.
  - simpl. by rewrite Nat.add_0_r.
  - cbn [Re.Lit Re.rmatch strip_prefix String.length].
    destruct rest as [|c rest]; [done|]. unfold Re.accepts.
    destruct (Ascii.eqb a c); [|done].
    by rewrite IH, Nat.add_succ_r.
Qed.

(** An anchored pattern can only match at the start of the text. *)
Lemma search_from_anchored r pos rest :
  pos ≠ 0 → Re.search_from (Re.Seq Re.Bol r) pos rest = None.
Proof.
  revert pos. induction rest as [|c rest IH]; intros pos Hpos;
    cbn [Re.search_from Re.rmatch];
    destruct (Nat.eqb_spec pos 0); try done.
  by apply IH.
Qed.

Lemma search_anchored r text :
  Re.search (Re.Seq Re.Bol r) text =
    Re.rmatch (Re.Seq Re.Bol r) 0 text ∅ Re.accept.
Proof.
  unfold Re.search. destruct text as [|c text]; cbn [Re.search_from].
  - by destruct (Re.rmatch _ _ _ _ _).
  - destruct (Re.rmatch _ _ _ _ _); [done|]. by apply search_from_anchored.
Qed.

Lemma search_ERROR_RE (content : string) :
  Re.search ERROR_RE content =
    (λ '(c, m), <["message" := m]> (<["code" := c]> ∅))
      <$> parse_error content.
Proof.
  unfold ERROR_RE. rewrite search_anchored.
  cbn [Re.rmatch Nat.eqb]. rewrite rmatch_Lit. unfold parse_error.
  destruct (strip_prefix "ERR-" content) as [s|] eqn:Hpre; [|done].
  apply strip_prefix_Some in Hpre as ->.
  rewrite rmatch_Plus_span.
  2:{ intros pos' [|c rest'] caps' Hd; [done|]. simpl in Hd.
      cbn [Re.rmatch Re.accepts]. by rewrite (digit_not_space c Hd). }
  destruct (span_app Re.is_digit s) as (Hs & _ & _).
  change (Re.accepts Re.Digit) with Re.is_digit.
  destruct (span Re.is_digit s) as [ds r]; cbn [fst snd] in *.
  destruct ds as [|d ds]; [done|].
  destruct r as [|c r]; [done|].
  cbn [Re.rmatch Re.accepts]. destruct (Ascii.eqb " " c); [|done].
  rewrite repeat_greedy_span.
  2:{ intros pos' [|c' [|c'' rest']] caps' Hd; [done| |done].
      simpl in Hd. unfold not_newline in *. simpl.
      by destruct (Ascii.eqb c' Re.newline). }
  change (Re.accepts Re.Dot) with not_newline.
  destruct (span_app not_newline r) as (Hr & _ & _).
  destruct (span not_newline r) as [msg tail]; cbn [fst snd] in *.
  cbn [andb]. destruct (Re.at_end tail); [|done].
  unfold Re.accept. cbn [fmap option_fmap option_map]. f_equal.
  f_equal.
  - replace (_ - _) with (String.length msg) by lia.
    rewrite Hr at 1. apply substring_prefix.
  - f_equal. rewrite Hs, <- string_app_assoc.
    replace (_ - 0) with (String.length ("ERR-" +:+ String d ds))
      by (rewrite string_app_length; lia).
    apply substring_prefix.
Qed.

Lemma parse_error_report (content ds msg tail : string) :
  error_report content ds msg tail →
  parse_error content = Some ("ERR-" +:+ ds, msg).
Proof.
  intros (-> & Hne & Hds & Hmsg & Htail). unfold parse_error.
  rewrite (proj2 (strip_prefix_Some "ERR-" _ _) eq_refl).
  rewrite (span_unique _ ds _ Hds) by done. cbn [fst snd].
  destruct ds as [|d ds]; [done|].
  change (" " +:+ msg +:+ tail) with (String " " (msg +:+ tail)).
  cbv beta iota.
  rewrite (span_unique _ msg tail Hmsg) by (by destruct Htail as [->| ->]).
  cbn [fst snd]. by rewrite (proj2 (at_end_spec tail) Htail).
Qed.

Lemma parse_error_Some (content c msg : string) :
  parse_error content = Some (c, msg) →
  ∃ ds tail, error_report content ds msg tail ∧ c = "ERR-" +:+ ds.
Proof.
  unfold parse_error.
  destruct (strip_prefix "ERR-" content) as [s|] eqn:Hpre; [|done].
  apply strip_prefix_Some in Hpre as ->.
  destruct (span_app Re.is_digit s) as (Hs & Hds & _).
  destruct (span Re.is_digit s) as [ds r]; cbn [fst snd] in *.
  destruct ds as [|d ds]; [done|]. destruct r as [|sp r]; [done|].
  destruct (Ascii.eqb_spec " " sp) as [<-|]; [|done]. cbn [andb].
  destruct (span_app not_newline r) as (Hr & Hmsg & _).
  destruct (span not_newline r) as [m tail]; cbn [fst snd] in *.
  destruct (Re.at_end tail) eqn:Hend; [|done].
  intros [= <- <-]. exists (String d ds), tail.
  split; [|done]. apply at_end_spec in Hend.
  split_and!; try done. by rewrite Hs, Hr.
Qed.

(** ** The nested accessor *)

Lemma get_in_reaches data keys r :
  reaches data keys r → get_in data keys = Ok r.
Proof.
  induction 1 as [v|d key keys v r Hv Hnn _ IH]; [done|].
  simpl. rewrite Hv. simpl. by destruct v.
Qed.

Lemma get_in_breaks data keys :
  breaks data keys → get_in data keys = Ok VNone.
Proof.
  induction 1 as [d key keys Hv|d key keys Hv|d key keys v Hv Hnn _ IH];
    simpl; rewrite Hv; simpl; [done|done|].
  by destruct v.
Qed.

Lemma get_in_stuck data keys :
  stuck data keys → get_in data keys = Raise AttributeError.
Proof.
  induction 1 as [v key keys Hv|d key keys v Hv Hnn _ IH]; simpl.
  - destruct v; try done. by destruct (Hv d).
  - rewrite Hv. simpl. by destruct v.
Qed.

Lemma is_VNone (v : value) : v = VNone ∨ v ≠ VNone.
Proof. destruct v; (by left) || (by right). Qed.

(** One of the three cases applies. *)
Lemma get_in_cases data keys :
  (∃ r, reaches data keys r) ∨ breaks data keys ∨ stuck data keys.
Proof.
  revert data. induction keys as [|key keys IH]; intros data.
  - left. eexists. constructor.
  - destruct data as [| | | | |d];
      try (right; right; by constructor).
    destruct (d !! key) as [v|] eqn:Hv;
      [|right; left; by constructor].
    destruct (is_VNone v) as [->|Hnn];
      [right; left; by constructor 2|].
    destruct (IH v) as [[r Hr]|[Hb|Hs]].
    + left. exists r. by econstructor.
    + right; left. by econstructor 3.
    + right; right. by econstructor 2.
Qed.

(** C9: for every mapping [d] and every sequence of keys, [get_in] returns
    the value reached by looking up the keys in order; it returns [None],
    without raising, as soon as a lookup finds its key absent or finds
    [None]; it raises (an [AttributeError]) exactly when a value met on the
    way, with keys left, is not a mapping, so it is total on the inputs whose
    intermediate values support key lookup. *)
Theorem get_in_nested_lookup (d : gmap string value) (keys : list string) :
  (∀ r, reaches (VDict d) keys r → get_in (VDict d) keys = Ok r)
  ∧ (breaks (VDict d) keys → get_in (VDict d) keys = Ok VNone)
  ∧ (stuck (VDict d) keys ↔ get_in (VDict d) keys = Raise AttributeError)
  ∧ (¬ stuck (VDict d) keys → ∃ r, get_in (VDict d) keys = Ok r).
Proof.
  split_and!.
  - apply get_in_reaches.
  - apply get_in_breaks.
  - split; [apply get_in_stuck|]. intros Hraise.
    destruct (get_in_cases (VDict d) keys) as [[r Hr]|[Hb|Hs]]; [| |done].
    + apply get_in_reaches in Hr. congruence.
    + apply get_in_breaks in Hb. congruence.
  - intros Hns.
    destruct (get_in_cases (VDict d) keys) as [[r Hr]|[Hb|Hs]]; [| |done].
    + exists r. by apply get_in_reaches.
    + exists VNone. by apply get_in_breaks.
Qed.

Lemma get_in_nested_lookup_witness :
  get_in (VDict sample_message) msgid_path = Ok (VStr "7")
  ∧ get_in (VDict sample_message) ["transport_metadata"; "other"; "msgid"] =
      Ok VNone.
Proof.
  split.
  - apply (proj1 (get_in_nested_lookup sample_message msgid_path)).
    do 3 lookup_step. apply reaches_here.
  - apply (proj1 (proj2 (get_in_nested_lookup sample_message
                           ["transport_metadata"; "other"; "msgid"]))).
    eapply breaks_step; [reflexivity|discriminate|].
    apply breaks_absent. reflexivity.
Defined.

(** ** The response classifier *)

Lemma get_send_status_parse (content : string) :
  get_send_status content =
    match parse_error content with
    | Some (c, m) =>
        {| SendStatus.code := Some c; SendStatus.message := Some m |}
    | None =>
        {| SendStatus.code := None; SendStatus.message := Some content |}
    end.
Proof.
  unfold get_send_status. rewrite search_ERROR_RE.
  destruct (parse_error content) as [[c m]|]; [|done].
  cbn [fmap option_fmap option_map]. unfold Re.group.
  by rewrite lookup_insert_ne, !lookup_insert_eq.
Qed.

Lemma parse_error_None (content : string) :
  parse_error content = None →
  ∀ ds msg tail, ¬ error_report content ds msg tail.
Proof.
  intros Hnone ds msg tail Hrep.
  apply parse_error_report in Hrep. congruence.
Qed.

Lemma code_then_no_space (content ds r : string) :
  code_then content ds r → head_in (Ascii.eqb " ") r = false →
  parse_error content = None.
Proof.
  intros (-> & Hne & Hds & Hr) Hsp. unfold parse_error.
  rewrite (proj2 (strip_prefix_Some "ERR-" _ _) eq_refl).
  rewrite (span_unique _ ds r Hds Hr). cbn [fst snd].
  destruct ds as [|d ds]; [done|]. destruct r as [|c r]; [done|].
  change (Ascii.eqb " " c = false) in Hsp. by rewrite Hsp.
Qed.

Lemma no_code_no_report (content : string) :
  (∀ ds r, ¬ code_then content ds r) → parse_error content = None.
Proof.
  intros Hno. destruct (parse_error content) as [[c m]|] eqn:Hp; [|done].
  apply parse_error_Some in Hp as (ds & tail & (Hc & Hne & Hds & _) & _).
  destruct (Hno ds (" " +:+ m +:+ tail)). by split_and!.
Qed.

(** C4: for every response text the classifier returns a status and never
    raises.  When [ERROR_RE] matches, the text is an error report, [ERR-] and
    digits, a space and a message of one line (a final newline is allowed and
    left out), and the status holds the code and the message; when it does
    not match, the text is no error report and the status holds a null code
    and the whole input as the message. *)
Theorem get_send_status_classifies (content : string) :
  match Re.search ERROR_RE content with
  | Some m =>
      ∃ ds msg tail,
        error_report content ds msg tail
        ∧ Re.group m "code" = Some ("ERR-" +:+ ds)
        ∧ Re.group m "message" = Some msg
        ∧ get_send_status content =
            {| SendStatus.code := Some ("ERR-" +:+ ds);
               SendStatus.message := Some msg |}
  | None =>
      (∀ ds msg tail, ¬ error_report content ds msg tail)
      ∧ get_send_status content =
          {| SendStatus.code := None; SendStatus.message := Some content |}
  end.
Proof.
  rewrite get_send_status_parse, search_ERROR_RE.
  destruct (parse_error content) as [[c m]|] eqn:Hp;
    cbn [fmap option_fmap option_map].
  - destruct (parse_error_Some _ _ _ Hp) as (ds & tail & Hrep & ->).
    exists ds, m, tail. unfold Re.group.
    by rewrite lookup_insert_ne, !lookup_insert_eq.
  - split; [by apply parse_error_None|done].
Qed.

(** C3: for every code, null included, the outcome mapper returns a tag,
    which is the tag of the table for a code of the table and the fallback
    tag [request_fail_unknown] for any other code and for null; the table
    has an entry for each of the eleven vendor conditions. *)
Theorem get_send_fail_type_total (code : option string) :
  (get_send_fail_type code = "request_fail_unknown"
   ∨ ∃ c, code = Some c
          ∧ SEND_FAIL_TYPES !! c = Some (get_send_fail_type code))
  ∧ ((∀ c, code = Some c → SEND_FAIL_TYPES !! c = None) →
     get_send_fail_type code = "request_fail_unknown")
  ∧ get_send_fail_type None = "request_fail_unknown"
  ∧ Forall (λ '(c, tag), SEND_FAIL_TYPES !! c = Some tag
                         ∧ get_send_fail_type (Some c) = tag)
      vendor_conditions.
Proof.
  split_and!.
  - unfold get_send_fail_type. destruct code as [c|]; [|by left]. simpl.
    destruct (SEND_FAIL_TYPES !! c) as [tag|] eqn:Htag; [|by left].
    right. by exists c.
  - intros Habsent. unfold get_send_fail_type.
    destruct code as [c|]; [|done]. simpl. by rewrite (Habsent c).
  - done.
  - repeat constructor.
Qed.

Lemma get_send_fail_type_total_witness :
  get_send_fail_type (Some "ERR-99") = "request_fail_unknown".
Proof.
  apply (proj1 (proj2 (get_send_fail_type_total (Some "ERR-99")))).
  intros c [= <-]. reflexivity.
Defined.

(** ** Building the request parameters *)

Lemma reaches_not_none data key keys r :
  reaches data (key :: keys) r → r ≠ VNone.
Proof.
  remember (key :: keys) as ks eqn:Hks. intros Hr. revert key keys Hks.
  induction Hr as [v|d k ks v r Hv Hnn Hr IH]; intros key keys Hks; [done|].
  destruct ks as [|k' ks']; [by inversion Hr; subst|]. by eapply IH.
Qed.

Lemma get_send_params_with_id config (message : gmap string value)
    from_addr to_addr content id :
  message !! "from_addr" = Some from_addr →
  message !! "to_addr" = Some to_addr →
  message !! "content" = Some content →
  get_in (VDict message) msgid_path = Ok id → id ≠ VNone →
  get_send_params config message =
    Ok (<["message_id" := id]> (fixed_params config from_addr to_addr content)).
Proof.
  intros Hf Ht Hc Hid Hnn. unfold get_send_params, getitem.
  rewrite Hf, Ht, Hc. cbn [mbind result_bind].
  change ["transport_metadata"; "vas2nets_sms"; "msgid"] with msgid_path.
  rewrite Hid. by destruct id.
Qed.

Lemma get_send_params_without_id config (message : gmap string value)
    from_addr to_addr content :
  message !! "from_addr" = Some from_addr →
  message !! "to_addr" = Some to_addr →
  message !! "content" = Some content →
  get_in (VDict message) msgid_path = Ok VNone →
  get_send_params config message =
    Ok (fixed_params config from_addr to_addr content).
Proof.
  intros Hf Ht Hc Hid. unfold get_send_params, getitem.
  rewrite Hf, Ht, Hc. cbn [mbind result_bind].
  change ["transport_metadata"; "vas2nets_sms"; "msgid"] with msgid_path.
  by rewrite Hid.
Qed.

(** What [get_send_params] returns for a message that has its [from_addr],
    [to_addr] and [content] and whose metadata are nested mappings. *)
Lemma get_send_params_query config (message : gmap string value)
    from_addr to_addr content :
  message !! "from_addr" = Some from_addr →
  message !! "to_addr" = Some to_addr →
  message !! "content" = Some content →
  ¬ stuck (VDict message) msgid_path →
  ∃ params : gmap string value,
    get_send_params config message = Ok params
    ∧ params !! "username" = Some (VStr (username config))
    ∧ params !! "password" = Some (VStr (password config))
    ∧ params !! "sender" = Some from_addr
    ∧ params !! "receiver" = Some to_addr
    ∧ params !! "message" = Some content
    ∧ (∀ id, reaches (VDict message) msgid_path id →
             params !! "message_id" = Some id)
    ∧ (breaks (VDict message) msgid_path → params !! "message_id" = None)
    ∧ (is_Some (params !! "message_id") ↔
       ∃ id, reaches (VDict message) msgid_path id).
Proof.
  intros Hf Ht Hc Hns.
  destruct (get_in_cases (VDict message) msgid_path) as [[id Hr]|[Hb|Hs]];
    [| |done].
  - pose proof (reaches_not_none _ _ _ _ Hr) as Hnn.
    pose proof (get_in_reaches _ _ _ Hr) as Hid.
    eexists. split; [by apply get_send_params_with_id|].
    rewrite !lookup_insert_ne by done. rewrite lookup_insert_eq.
    split_and!; try done.
    + intros id' Hr'. apply get_in_reaches in Hr'. congruence.
    + intros Hb. apply get_in_breaks in Hb. congruence.
    + split; [by exists id|by eexists].
  - pose proof (get_in_breaks _ _ Hb) as Hid.
    eexists. split; [by apply get_send_params_without_id|].
    assert (∀ id, ¬ reaches (VDict message) msgid_path id) as Hno.
    { intros id Hr. pose proof (reaches_not_none _ _ _ _ Hr).
      apply get_in_reaches in Hr. congruence. }
    split_and!; try done.
    + intros id Hr. by destruct (Hno id).
    + split; [by intros [? [=]]|]. intros [id Hr]. by destruct (Hno id).
Qed.

(** ** The outbound handler *)

Lemma handle_outbound_message_rejects config (message : gmap string value)
    reply :
  ensure_message_values message EXPECTED_MESSAGE_FIELDS ≠ ∅ →
  handle_outbound_message config message reply =
    (Ok tt,
     [reject_message message
        (ensure_message_values message EXPECTED_MESSAGE_FIELDS)]).
Proof.
  intros Hmissing. unfold handle_outbound_message.
  by rewrite bool_decide_eq_true_2.
Qed.

Lemma handle_outbound_message_issues config (message : gmap string value)
    params reply :
  ensure_message_values message EXPECTED_MESSAGE_FIELDS = ∅ →
  get_send_params config message = Ok params →
  handle_outbound_message config message reply =
    (call (issued config params);;
     match reply with
     | treq.Fails e =>
         if is_send_timeout e then handle_send_timeout message
         else lift (Raise e)
     | treq.Responds resp =>
         let status := get_send_status (treq.content resp) in
         if bool_decide (treq.code resp = http.OK)
            && bool_decide (SendStatus.code status = None)
         then handle_outbound_success message
         else handle_outbound_fail message status
     end).
Proof.
  intros Hvalid Hparams. unfold handle_outbound_message, send_message.
  rewrite Hvalid, Hparams.
  rewrite bool_decide_eq_false_2 by (intros Hne; apply Hne; reflexivity).
  unfold issued.
  destruct reply as [e|resp];
    cbn [mbind io_bind bind attempt lift call mret io_ret ret fst snd app];
    reflexivity.
Qed.

Lemma handle_send_timeout_trace (message : gmap string value) mid :
  message !! "message_id" = Some mid →
  handle_send_timeout message =
    (Ok tt,
     [publish_nack mid mid (Some "Request timeout");
      add_status "outbound" "down" "request_timeout"
        (Some "Request timeout") None]).
Proof. intros Hid. unfold handle_send_timeout, getitem. by rewrite Hid. Qed.

Lemma handle_outbound_success_trace (message : gmap string value) mid :
  message !! "message_id" = Some mid →
  handle_outbound_success message =
    (Ok tt,
     [publish_ack mid mid;
      add_status "outbound" "ok" "request_success"
        (Some "Request successful") None]).
Proof. intros Hid. unfold handle_outbound_success, getitem. by rewrite Hid. Qed.

Lemma handle_outbound_fail_trace (message : gmap string value) mid status :
  message !! "message_id" = Some mid →
  handle_outbound_fail message status =
    (Ok tt,
     [publish_nack mid mid (SendStatus.message status);
      add_status "outbound" "down"
        (get_send_fail_type (SendStatus.code status))
        (SendStatus.message status) None]).
Proof. intros Hid. unfold handle_outbound_fail, getitem. by rewrite Hid. Qed.

Lemma send_succeeded_decide (resp : treq.response) :
  bool_decide (treq.code resp = http.OK)
  && bool_decide
       (SendStatus.code (get_send_status (treq.content resp)) = None) = true
  ↔ send_succeeded resp.
Proof.
  unfold send_succeeded.
  by rewrite andb_true_iff, !bool_decide_eq_true.
Qed.

Lemma outbound_success_trace config (message : gmap string value) mid params
    resp :
  ensure_message_values message EXPECTED_MESSAGE_FIELDS = ∅ →
  message !! "message_id" = Some mid →
  get_send_params config message = Ok params →
  send_succeeded resp →
  handle_outbound_message config message (treq.Responds resp) =
    (Ok tt,
     [issued config params;
      publish_ack mid mid;
      add_status "outbound" "ok" "request_success"
        (Some "Request successful") None]).
Proof.
  intros Hvalid Hid Hparams Hok.
  rewrite (handle_outbound_message_issues _ _ _ _ Hvalid Hparams).
  cbv zeta. rewrite (proj2 (send_succeeded_decide resp) Hok).
  by rewrite (handle_outbound_success_trace _ _ Hid).
Qed.

Lemma outbound_fail_trace config (message : gmap string value) mid params
    resp :
  ensure_message_values message EXPECTED_MESSAGE_FIELDS = ∅ →
  message !! "message_id" = Some mid →
  get_send_params config message = Ok params →
  ¬ send_succeeded resp →
  handle_outbound_message config message (treq.Responds resp) =
    (Ok tt,
     [issued config params;
      publish_nack mid mid
        (SendStatus.message (get_send_status (treq.content resp)));
      add_status "outbound" "down"
        (get_send_fail_type
           (SendStatus.code (get_send_status (treq.content resp))))
        (SendStatus.message (get_send_status (treq.content resp))) None]).
Proof.
  intros Hvalid Hid Hparams Hko.
  rewrite (handle_outbound_message_issues _ _ _ _ Hvalid Hparams).
  cbv zeta.
  pose proof (send_succeeded_decide resp) as Hdec.
  destruct (bool_decide (treq.code resp = http.OK) && bool_decide _);
    [by destruct Hko; apply Hdec|].
  rewrite (handle_outbound_fail_trace _ _ _ Hid). reflexivity.
Qed.

Lemma outbound_timeout_trace config (message : gmap string value) mid params
    e :
  ensure_message_values message EXPECTED_MESSAGE_FIELDS = ∅ →
  message !! "message_id" = Some mid →
  get_send_params config message = Ok params →
  is_send_timeout e = true →
  handle_outbound_message config message (treq.Fails e) =
    (Ok tt,
     [issued config params;
      publish_nack mid mid (Some "Request timeout");
      add_status "outbound" "down" "request_timeout"
        (Some "Request timeout") None]).
Proof.
  intros Hvalid Hid Hparams He.
  rewrite (handle_outbound_message_issues _ _ _ _ Hvalid Hparams), He.
  by rewrite (handle_send_timeout_trace _ _ Hid).
Qed.

(** ** The outcomes of a send *)

(** C2: for an outbound message that passes the field validation, carries
    its [message_id] and is sent, when the vendor responds the transport
    publishes an acknowledgement, with both ids equal to the [message_id], and
    the status event [outbound]/[ok]/[request_success] if and only if the
    HTTP code is 200 and the classified code is null; otherwise it publishes
    a negative acknowledgement whose reason is the classified message, and
    the status event [outbound]/[down] whose type is the outcome mapper's tag
    of the classified code and whose message is the classified message. *)
Theorem outbound_response_outcome config (message : gmap string value) mid
    params resp :
  ensure_message_values message EXPECTED_MESSAGE_FIELDS = ∅ →
  message !! "message_id" = Some mid →
  get_send_params config message = Ok params →
  let status := get_send_status (treq.content resp) in
  let run := handle_outbound_message config message (treq.Responds resp) in
  (send_succeeded resp →
   run = (Ok tt,
          [issued config params;
           publish_ack mid mid;
           add_status "outbound" "ok" "request_success"
             (Some "Request successful") None]))
  ∧ (¬ send_succeeded resp →
     run = (Ok tt,
            [issued config params;
             publish_nack mid mid (SendStatus.message status);
             add_status "outbound" "down"
               (get_send_fail_type (SendStatus.code status))
               (SendStatus.message status) None]))
  ∧ (publish_ack mid mid ∈ trace_of run ↔ send_succeeded resp).
Proof.
  intros Hvalid Hid Hparams status run. subst status run.
  split_and!.
  - by apply outbound_success_trace.
  - by apply outbound_fail_trace.
  - pose proof (send_succeeded_decide resp) as Hdec.
    destruct (bool_decide (treq.code resp = http.OK) && bool_decide _).
    + rewrite (outbound_success_trace _ _ _ _ _ Hvalid Hid Hparams)
        by (by apply Hdec).
      split; [intros _; by apply Hdec|]. intros _.
      unfold trace_of. cbn [snd]. apply list_elem_of_In. right. by left.
    + assert (¬ send_succeeded resp) as Hko by (by intros ?%Hdec).
      rewrite (outbound_fail_trace _ _ _ _ _ Hvalid Hid Hparams Hko).
      split; [|intros Hok; destruct (Hko Hok)]. unfold trace_of. cbn [snd].
      intros Hin%list_elem_of_In. unfold issued in Hin.
      destruct Hin as [[=]|[[=]|[[=]|[]]]].
Qed.

Lemma outbound_response_outcome_witness :
  handle_outbound_message sample_config sample_message
    (treq.Responds
       {| treq.code := 200; treq.content := "ERR-41 Insufficient credit" |}) =
    (Ok tt,
     [issued sample_config sample_params;
      publish_nack (VStr "m-1") (VStr "m-1") (Some "Insufficient credit");
      add_status "outbound" "down" "insufficient_credit"
        (Some "Insufficient credit") None]).
Proof.
  refine (proj1 (proj2 (outbound_response_outcome sample_config
    sample_message (VStr "m-1") sample_params
    {| treq.code := 200; treq.content := "ERR-41 Insufficient credit" |}
    _ _ _)) _).
  - by_evaluation.
  - reflexivity.
  - apply get_send_params_with_id;
      [reflexivity|reflexivity|reflexivity|reflexivity|discriminate].
  - intros [_ Hcode]. vm_compute in Hcode. discriminate Hcode.
Defined.

(** C7: when the send of a valid outbound message ends with
    [ResponseNeverReceived], [ConnectingCancelledError] or [CancelledError],
    the transport publishes a negative acknowledgement with both ids equal to
    the [message_id] and the reason "Request timeout", then the status event
    [outbound]/[down]/[request_timeout]; the three causes give the same
    trace, which holds one HTTP call only: there is no retry. *)
Theorem send_timeout_outcome config (message : gmap string value) mid params
    e :
  ensure_message_values message EXPECTED_MESSAGE_FIELDS = ∅ →
  message !! "message_id" = Some mid →
  get_send_params config message = Ok params →
  e = ResponseNeverReceived ∨ e = ConnectingCancelledError
    ∨ e = CancelledError →
  handle_outbound_message config message (treq.Fails e) =
    (Ok tt,
     [issued config params;
      publish_nack mid mid (Some "Request timeout");
      add_status "outbound" "down" "request_timeout"
        (Some "Request timeout") None])
  ∧ http_calls
      (trace_of (handle_outbound_message config message (treq.Fails e))) = 1.
Proof.
  intros Hvalid Hid Hparams He.
  assert (is_send_timeout e = true) as Hto
    by (destruct He as [->|[->| ->]]; reflexivity).
  rewrite (outbound_timeout_trace _ _ _ _ _ Hvalid Hid Hparams Hto).
  split; reflexivity.
Qed.

Lemma send_timeout_outcome_witness :
  handle_outbound_message sample_config sample_message
    (treq.Fails ConnectingCancelledError) =
    (Ok tt,
     [issued sample_config sample_params;
      publish_nack (VStr "m-1") (VStr "m-1") (Some "Request timeout");
      add_status "outbound" "down" "request_timeout"
        (Some "Request timeout") None]).
Proof.
  refine (proj1 (send_timeout_outcome sample_config sample_message
    (VStr "m-1") sample_params ConnectingCancelledError _ _ _ _)).
  - by_evaluation.
  - reflexivity.
  - apply get_send_params_with_id;
      [reflexivity|reflexivity|reflexivity|reflexivity|discriminate].
  - right. left. reflexivity.
Defined.

(** ** Rejection of incomplete messages *)

Lemma elem_of_ensure_message_values (message : gmap string value)
    (expected_fields : gset string) (field : string) :
  field ∈ ensure_message_values message expected_fields ↔
  field ∈ expected_fields ∧ missing_or_empty message field = true.
Proof.
  unfold ensure_message_values. rewrite elem_of_filter. tauto.
Qed.

(** C6: an outbound message in which one of [from_addr], [to_addr] and
    [content] is missing or empty is rejected back to the bus, with the set
    of the missing field names as the reason, and the handler ends there:
    the rejection is its only call, and no HTTP call is made. *)
Theorem outbound_missing_fields_rejected config
    (message : gmap string value) reply (field : string) :
  field ∈ EXPECTED_MESSAGE_FIELDS →
  missing_or_empty message field = true →
  let missing := ensure_message_values message EXPECTED_MESSAGE_FIELDS in
  let run := handle_outbound_message config message reply in
  run = (Ok tt, [reject_message message missing])
  ∧ field ∈ missing
  ∧ (∀ f, f ∈ missing ↔
          f ∈ EXPECTED_MESSAGE_FIELDS ∧ missing_or_empty message f = true)
  ∧ http_calls (trace_of run) = 0.
Proof.
  intros Hfield Hmissing missing run. subst missing run.
  assert (field ∈ ensure_message_values message EXPECTED_MESSAGE_FIELDS)
    as Hin by (apply elem_of_ensure_message_values; split; assumption).
  rewrite handle_outbound_message_rejects
    by (intros Hempty; rewrite Hempty in Hin; by apply not_elem_of_empty in Hin).
  split_and!; [reflexivity|assumption| |reflexivity].
  intros f. apply elem_of_ensure_message_values.
Qed.

Lemma outbound_missing_fields_rejected_witness :
  handle_outbound_message sample_config sample_message_no_to_addr
    (treq.Responds {| treq.code := 200; treq.content := "OK" |}) =
    (Ok tt, [reject_message sample_message_no_to_addr {[ "to_addr" ]}]).
Proof.
  refine (eq_trans (proj1 (outbound_missing_fields_rejected sample_config
    sample_message_no_to_addr
    (treq.Responds {| treq.code := 200; treq.content := "OK" |})
    "to_addr" _ _)) _).
  - by_evaluation.
  - reflexivity.
  - vm_compute. reflexivity.
Defined.

(** ** Responses that are not error reports *)

(** C10: a response body in which the code is not followed by a space
    (the bare "ERR-41", say), or which does not begin with a code, does not
    match [ERROR_RE] and is classified with a null code and the whole body as
    the message; with the HTTP code 200 the send then counts as a success:
    an acknowledgement is published, not a negative acknowledgement. *)
Theorem unmatched_code_is_acknowledged config (message : gmap string value)
    mid params content :
  (∃ ds r, code_then content ds r ∧ head_in (Ascii.eqb " ") r = false)
  ∨ (∀ ds r, ¬ code_then content ds r) →
  ensure_message_values message EXPECTED_MESSAGE_FIELDS = ∅ →
  message !! "message_id" = Some mid →
  get_send_params config message = Ok params →
  Re.search ERROR_RE content = None
  ∧ get_send_status content =
      {| SendStatus.code := None; SendStatus.message := Some content |}
  ∧ handle_outbound_message config message
      (treq.Responds {| treq.code := http.OK; treq.content := content |}) =
      (Ok tt,
       [issued config params;
        publish_ack mid mid;
        add_status "outbound" "ok" "request_success"
          (Some "Request successful") None]).
Proof.
  intros Hshape Hvalid Hid Hparams.
  assert (parse_error content = None) as Hnone.
  { destruct Hshape as [(ds & r & Hcode & Hsp)|Hno].
    - by eapply code_then_no_space.
    - by apply no_code_no_report. }
  assert (get_send_status content =
    {| SendStatus.code := None; SendStatus.message := Some content |})
    as Hstatus by (by rewrite get_send_status_parse, Hnone).
  split_and!.
  - by rewrite search_ERROR_RE, Hnone.
  - exact Hstatus.
  - apply outbound_success_trace; try assumption.
    split; [reflexivity|]. cbn [treq.content]. by rewrite Hstatus.
Qed.

Lemma unmatched_code_is_acknowledged_witness :
  handle_outbound_message sample_config sample_message
    (treq.Responds {| treq.code := 200; treq.content := "ERR-41" |}) =
    (Ok tt,
     [issued sample_config sample_params;
      publish_ack (VStr "m-1") (VStr "m-1");
      add_status "outbound" "ok" "request_success"
        (Some "Request successful") None])
  ∧ get_send_status "Sorry: ERR-41 Insufficient credit" =
      {| SendStatus.code := None;
         SendStatus.message := Some "Sorry: ERR-41 Insufficient credit" |}.
Proof.
  split.
  - refine (proj2 (proj2 (unmatched_code_is_acknowledged sample_config
      sample_message (VStr "m-1") sample_params "ERR-41" _ _ _ _))).
    + left. exists "41", "". split; [|reflexivity].
      split; [reflexivity|]. split; [discriminate|].
      split; reflexivity.
    + by_evaluation.
    + reflexivity.
    + apply get_send_params_with_id;
        [reflexivity|reflexivity|reflexivity|reflexivity|discriminate].
  - refine (proj1 (proj2 (unmatched_code_is_acknowledged sample_config
      sample_message (VStr "m-1") sample_params
      "Sorry: ERR-41 Insufficient credit" _ _ _ _))).
    + right. intros ds r (Hc & _). discriminate Hc.
    + by_evaluation.
    + reflexivity.
    + apply get_send_params_with_id;
        [reflexivity|reflexivity|reflexivity|reflexivity|discriminate].
Defined.

(** ** The inbound handler *)

(** C8, as amended: when the six fields of an inbound request were read and
    the field validator reported no errors, the transport publishes a bus message whose [from_addr] is
    the sender, of type "msisdn", whose [to_addr] is the receiver, whose
    [content] is the [msgdata], whose [provider] is the operator and whose
    transport metadata hold the inbound [msgid] under the vendor key; it then
    answers the request with the HTTP code 200 and an empty JSON object, and
    only then emits the status event. *)
Theorem inbound_success_publishes (message_id : string)
    (request : twisted.request) (vals : gmap string value) (errors : value)
    sender receiver msgdata recvtime msgid operator :
  vals !! "sender" = Some sender →
  vals !! "receiver" = Some receiver →
  vals !! "msgdata" = Some msgdata →
  vals !! "recvtime" = Some recvtime →
  vals !! "msgid" = Some msgid →
  vals !! "operator" = Some operator →
  truthy errors = false →
  ∃ fields : gmap string value,
    handle_raw_inbound_message message_id request (Ok (vals, errors)) =
      (Ok tt,
       [publish_message fields;
        finish_request message_id (json_dumps (VDict ∅)) http.OK;
        add_status "inbound" "ok" "request_success"
          (Some "Request successful") None])
    ∧ fields !! "message_id" = Some (VStr message_id)
    ∧ fields !! "from_addr" = Some sender
    ∧ fields !! "from_addr_type" = Some (VStr "msisdn")
    ∧ fields !! "to_addr" = Some receiver
    ∧ fields !! "content" = Some msgdata
    ∧ fields !! "provider" = Some operator
    ∧ fields !! "transport_type" = Some (VStr "sms")
    ∧ fields !! "transport_metadata" =
        Some (VDict {[ "vas2nets_sms" := VDict {[ "msgid" := msgid ]} ]}).
Proof.
  intros Hs Hr Hd Ht Hi Ho Herr.
  unfold handle_raw_inbound_message, handle_inbound_message,
    get_message_dict, getitem.
  rewrite Herr, Hs, Hr, Hd, Hi, Ho.
  eexists. split; [reflexivity|].
  split_and!; reflexivity.
Qed.

Lemma inbound_success_publishes_witness :
  ∃ fields : gmap string value,
    handle_raw_inbound_message "req-1" sample_request
      (Ok (sample_vals, VDict ∅)) =
      (Ok tt,
       [publish_message fields;
        finish_request "req-1" (json_dumps (VDict ∅)) 200;
        add_status "inbound" "ok" "request_success"
          (Some "Request successful") None])
    ∧ fields !! "transport_metadata" =
        Some (VDict {[ "vas2nets_sms" := VDict {[ "msgid" := VStr "7" ]} ]}).
Proof.
  assert (truthy (VDict ∅) = false) as Herrors
    by (vm_compute; reflexivity).
  destruct (inbound_success_publishes "req-1" sample_request sample_vals
    (VDict ∅) (VStr "+27831234567") (VStr "9292") (VStr "hello")
    (VStr "2012-02-27 19-50-12") (VStr "7") (VStr "MTN")
    eq_refl eq_refl eq_refl eq_refl eq_refl eq_refl Herrors)
    as (fields & Hrun & Hfields).
  exists fields. split; [exact Hrun|]. apply Hfields.
Defined.

(** C8 as stated, for every request whose six fields are present and
    decodable, fails when the validator also reports an error, an unexpected
    parameter say: the six values are there, and the handler answers 400 and
    publishes nothing. *)
Lemma six_fields_with_errors_counterexample :
  dom sample_vals = EXPECTED_FIELDS
  ∧ handle_raw_inbound_message "req-1" sample_request
      (Ok (sample_vals, sample_unexpected)) =
      (Ok tt,
       [log_error "Bad request fields for inbound message: %s %s"
          [sample_unexpected; VDict (get_request_dict sample_request)];
        finish_request "req-1" (json_dumps sample_unexpected) 400;
        add_status "inbound" "down" "request_bad_fields"
          (Some "Bad request fields")
          (Some (VDict {[ "request" :=
                            VDict (get_request_dict sample_request);
                          "errors" := sample_unexpected ]}))])
  ∧ List.filter
      (fun e => match e with publish_message _ => true | _ => false end)
      (trace_of
         (handle_raw_inbound_message "req-1" sample_request
            (Ok (sample_vals, sample_unexpected)))) = [].
Proof.
  assert (truthy sample_unexpected = true) as Herrors
    by (vm_compute; reflexivity).
  split; [by_evaluation|].
  unfold handle_raw_inbound_message. rewrite Herrors.
  split; reflexivity.
Qed.

(** ** Health-status events on the error paths *)






(** ** The test cases of the specification, evaluated *)

Example classify_insufficient_credit :
  get_send_status "ERR-41 Insufficient credit" =
    {| SendStatus.code := Some "ERR-41";
       SendStatus.message := Some "Insufficient credit" |}.
Proof. vm_compute. reflexivity. Qed.

Example classify_ok :
  get_send_status "OK" =
    {| SendStatus.code := None; SendStatus.message := Some "OK" |}.
Proof. vm_compute. reflexivity. Qed.

Example classify_two_lines :
  get_send_status ("ERR-41 Insufficient" +:+ String Re.newline "credit") =
    {| SendStatus.code := None;
       SendStatus.message :=
         Some ("ERR-41 Insufficient" +:+ String Re.newline "credit") |}.
Proof. vm_compute. reflexivity. Qed.

Example classify_final_newline :
  get_send_status ("ERR-52 System error" +:+ String Re.newline "") =
    {| SendStatus.code := Some "ERR-52";
       SendStatus.message := Some "System error" |}.
Proof. vm_compute. reflexivity. Qed.

Example unknown_code_tag :
  get_send_fail_type (SendStatus.code (get_send_status "ERR-99 Weird")) =
    "request_fail_unknown".
Proof. vm_compute. reflexivity. Qed.

Example sender_id_too_long_tag :
  get_send_fail_type (Some "ERR-21") = "ender_id_too_long".
Proof. vm_compute. reflexivity. Qed.

Example ok_is_acknowledged :
  trace_of
    (handle_outbound_message sample_config sample_message
       (treq.Responds {| treq.code := 200; treq.content := "OK" |})) =
    [issued sample_config sample_params;
     publish_ack (VStr "m-1") (VStr "m-1");
     add_status "outbound" "ok" "request_success"
       (Some "Request successful") None].
Proof.
  rewrite (outbound_success_trace sample_config sample_message (VStr "m-1")
             sample_params).
  - reflexivity.
  - by_evaluation.
  - reflexivity.
  - apply get_send_params_with_id;
      [reflexivity|reflexivity|reflexivity|reflexivity|discriminate].
  - split; vm_compute; reflexivity.
Qed.

Example server_error_is_not_acknowledged :
  trace_of
    (handle_outbound_message sample_config sample_message
       (treq.Responds {| treq.code := 500; treq.content := "OK" |})) =
    [issued sample_config sample_params;
     publish_nack (VStr "m-1") (VStr "m-1") (Some "OK");
     add_status "outbound" "down" "request_fail_unknown" (Some "OK") None].
Proof.
  rewrite (outbound_fail_trace sample_config sample_message (VStr "m-1")
             sample_params).
  - reflexivity.
  - by_evaluation.
  - reflexivity.
  - apply get_send_params_with_id;
      [reflexivity|reflexivity|reflexivity|reflexivity|discriminate].
  - intros [Hcode _]. discriminate Hcode.
Qed.

Example unhandled_error_propagates :
  handle_outbound_message sample_config sample_message
    (treq.Fails (OtherError "ConnectionRefusedError")) =
    (Raise (OtherError "ConnectionRefusedError"),
     [issued sample_config sample_params]).
Proof.
  rewrite (handle_outbound_message_issues sample_config sample_message
             sample_params).
  - reflexivity.
  - by_evaluation.
  - apply get_send_params_with_id;
      [reflexivity|reflexivity|reflexivity|reflexivity|discriminate].
Qed.

Example metadata_of_wrong_shape_raises :
  get_send_params sample_config
    (<["transport_metadata" := VDict {[ "vas2nets_sms" := VStr "7" ]}]>
       sample_message) = Raise AttributeError.
Proof. vm_compute. reflexivity. Qed.

Example no_metadata_no_message_id :
  get_send_params sample_config (delete "transport_metadata" sample_message) =
    Ok (fixed_params sample_config (VStr "9292") (VStr "+27831234567")
          (VStr "hello")).
Proof.
  apply get_send_params_without_id; reflexivity.
Qed.

(** ** Every run of the outbound handler *)

Lemma get_in_raises data keys e :
  get_in data keys = Raise e → e = AttributeError.
Proof.
  intros Hraise.
  destruct (get_in_cases data keys) as [[r Hr]|[Hb|Hs]].
  - apply get_in_reaches in Hr. congruence.
  - apply get_in_breaks in Hb. congruence.
  - apply get_in_stuck in Hs. congruence.
Qed.

Lemma get_send_params_raises config (message : gmap string value) e :
  get_send_params config message = Raise e → is_send_timeout e = false.
Proof.
  unfold get_send_params, getitem.
  destruct (message !! "from_addr") as [from_addr|];
    [|intros [= <-]; reflexivity].
  destruct (message !! "to_addr") as [to_addr|];
    [|intros [= <-]; reflexivity].
  destruct (message !! "content") as [content|];
    [|intros [= <-]; reflexivity].
  cbn [mbind result_bind].
  destruct (get_in _ _) as [id|e'] eqn:Hid.
  - destruct id; intros [=].
  - intros [= <-]. apply get_in_raises in Hid. subst e'. reflexivity.
Qed.

Lemma handle_outbound_message_not_sent config (message : gmap string value)
    reply e :
  ensure_message_values message EXPECTED_MESSAGE_FIELDS = ∅ →
  get_send_params config message = Raise e →
  handle_outbound_message config message reply = (Raise e, []).
Proof.
  intros Hvalid Hparams. unfold handle_outbound_message, send_message.
  rewrite Hvalid, Hparams.
  rewrite bool_decide_eq_false_2 by (intros Hne; apply Hne; reflexivity).
  cbn [mbind io_bind bind attempt lift call mret io_ret ret fst snd app].
  rewrite (get_send_params_raises _ _ _ Hparams). reflexivity.
Qed.

Lemma handle_send_timeout_no_id (message : gmap string value) :
  message !! "message_id" = None →
  handle_send_timeout message = (Raise (KeyError "message_id"), []).
Proof. intros Hid. unfold handle_send_timeout, getitem. rewrite Hid. reflexivity. Qed.

Lemma handle_outbound_success_no_id (message : gmap string value) :
  message !! "message_id" = None →
  handle_outbound_success message = (Raise (KeyError "message_id"), []).
Proof.
  intros Hid. unfold handle_outbound_success, getitem. rewrite Hid.
  reflexivity.
Qed.

Lemma handle_outbound_fail_no_id (message : gmap string value) status :
  message !! "message_id" = None →
  handle_outbound_fail message status = (Raise (KeyError "message_id"), []).
Proof.
  intros Hid. unfold handle_outbound_fail, getitem. rewrite Hid. reflexivity.
Qed.

Lemma handle_outbound_message_run config (message : gmap string value) reply :
  outbound_run config message (handle_outbound_message config message reply).
Proof.
  destruct (decide (ensure_message_values message EXPECTED_MESSAGE_FIELDS = ∅))
    as [Hvalid|Hmissing].
  2:{ rewrite (handle_outbound_message_rejects _ _ _ Hmissing).
      apply run_rejected. }
  destruct (get_send_params config message) as [params|e] eqn:Hparams.
  2:{ rewrite (handle_outbound_message_not_sent _ _ _ _ Hvalid Hparams).
      apply run_not_sent. }
  rewrite (handle_outbound_message_issues _ _ _ _ Hvalid Hparams).
  destruct (message !! "message_id") as [mid|] eqn:Hid.
  - destruct reply as [e|resp].
    + destruct (is_send_timeout e); [|apply run_sent_raised].
      rewrite (handle_send_timeout_trace _ _ Hid). apply run_nacked.
    + cbv zeta. destruct (bool_decide _ && bool_decide _).
      * rewrite (handle_outbound_success_trace _ _ Hid). apply run_acked.
      * rewrite (handle_outbound_fail_trace _ _ _ Hid). apply run_nacked.
  - destruct reply as [e|resp].
    + destruct (is_send_timeout e); [|apply run_sent_raised].
      rewrite (handle_send_timeout_no_id _ Hid). apply run_sent_raised.
    + cbv zeta. destruct (bool_decide _ && bool_decide _).
      * rewrite (handle_outbound_success_no_id _ Hid). apply run_sent_raised.
      * rewrite (handle_outbound_fail_no_id _ _ Hid). apply run_sent_raised.
Qed.

(** X1: whatever the message and the vendor's answer, the outbound
    handler makes at most one HTTP call, never answers an HTTP request and
    never publishes a bus message; when it returns it has told the bus exactly
    one outcome (an acknowledgement, a negative acknowledgement or a
    rejection), and when it raises it has told the bus nothing and emitted no
    health-status event. *)
Theorem outbound_tells_the_bus_once config (message : gmap string value)
    reply :
  let run := handle_outbound_message config message reply in
  (http_calls (trace_of run) ≤ 1)%nat
  ∧ responses (trace_of run) = 0
  ∧ published (trace_of run) = 0
  ∧ (status_events (trace_of run) ≤ bus_outcomes (trace_of run))%nat
  ∧ (fst run = Ok tt → bus_outcomes (trace_of run) = 1)
  ∧ (∀ e, fst run = Raise e →
          bus_outcomes (trace_of run) = 0 ∧ status_events (trace_of run) = 0).
Proof.
  cbv zeta.
  destruct (handle_outbound_message_run config message reply);
    unfold issued, trace_of, http_calls, responses, published, status_events,
      bus_outcomes;
    cbn [fst snd List.filter is_treq_get is_finish_request is_publish_message
         is_add_status is_bus_outcome length];
    (split_and!;
       [lia|reflexivity|reflexivity|lia
       |intros Hok; first [reflexivity|discriminate Hok]
       |intros e' He'; first [discriminate He'|split; reflexivity]]).
Qed.

(** ** Errors that the outbound handler does not handle *)

Lemma get_send_params_stuck config (message : gmap string value)
    from_addr to_addr content :
  message !! "from_addr" = Some from_addr →
  message !! "to_addr" = Some to_addr →
  message !! "content" = Some content →
  stuck (VDict message) msgid_path →
  get_send_params config message = Raise AttributeError.
Proof.
  intros Hf Ht Hc Hs. unfold get_send_params, getitem.
  rewrite Hf, Ht, Hc. cbn [mbind result_bind].
  change ["transport_metadata"; "vas2nets_sms"; "msgid"] with msgid_path.
  rewrite (get_in_stuck _ _ Hs). reflexivity.
Qed.

(** X3: a message that passes the validation but whose transport
    metadata are not nested mappings is not sent: building the parameters
    raises [AttributeError], which the handler does not catch; no HTTP call is
    made, and no negative acknowledgement or status event is published. *)
Theorem malformed_metadata_is_not_sent config (message : gmap string value)
    reply from_addr to_addr content :
  ensure_message_values message EXPECTED_MESSAGE_FIELDS = ∅ →
  message !! "from_addr" = Some from_addr →
  message !! "to_addr" = Some to_addr →
  message !! "content" = Some content →
  stuck (VDict message) msgid_path →
  handle_outbound_message config message reply = (Raise AttributeError, []).
Proof.
  intros Hvalid Hf Ht Hc Hs.
  apply handle_outbound_message_not_sent; [exact Hvalid|].
  by eapply get_send_params_stuck.
Qed.

(** X4: an exception of the HTTP client other than the three timeout
    kinds is not caught: after the one HTTP call the handler raises it, and
    publishes neither a negative acknowledgement nor a status event. *)
Theorem unhandled_send_error_propagates config (message : gmap string value)
    params e :
  ensure_message_values message EXPECTED_MESSAGE_FIELDS = ∅ →
  get_send_params config message = Ok params →
  is_send_timeout e = false →
  handle_outbound_message config message (treq.Fails e) =
    (Raise e, [issued config params]).
Proof.
  intros Hvalid Hparams He.
  rewrite (handle_outbound_message_issues _ _ _ _ Hvalid Hparams), He.
  reflexivity.
Qed.

(** X5: for a message without [message_id] that passes the validation,
    the HTTP call is made, and once the vendor has answered, or the send has
    timed out, the handler raises [KeyError] before it publishes anything. *)
Theorem missing_message_id_raises_after_send config
    (message : gmap string value) params reply :
  ensure_message_values message EXPECTED_MESSAGE_FIELDS = ∅ →
  get_send_params config message = Ok params →
  message !! "message_id" = None →
  (∀ e, reply = treq.Fails e → is_send_timeout e = true) →
  handle_outbound_message config message reply =
    (Raise (KeyError "message_id"), [issued config params]).
Proof.
  intros Hvalid Hparams Hid Hreply.
  rewrite (handle_outbound_message_issues _ _ _ _ Hvalid Hparams).
  destruct reply as [e|resp].
  - rewrite (Hreply e eq_refl), (handle_send_timeout_no_id _ Hid).
    reflexivity.
  - cbv zeta. destruct (bool_decide _ && bool_decide _).
    + rewrite (handle_outbound_success_no_id _ Hid). reflexivity.
    + rewrite (handle_outbound_fail_no_id _ _ Hid). reflexivity.
Qed.

(** ** Vendor failures *)

Lemma get_send_status_report (content ds msg tail : string) :
  error_report content ds msg tail →
  get_send_status content =
    {| SendStatus.code := Some ("ERR-" +:+ ds);
       SendStatus.message := Some msg |}.
Proof.
  intros Hrep. rewrite get_send_status_parse.
  rewrite (parse_error_report _ _ _ _ Hrep). reflexivity.
Qed.

Lemma get_send_status_no_code (content : string) :
  SendStatus.code (get_send_status content) = None →
  get_send_status content =
    {| SendStatus.code := None; SendStatus.message := Some content |}.
Proof.
  rewrite get_send_status_parse.
  destruct (parse_error content) as [[c m]|]; [intros [=]|reflexivity].
Qed.

(** X6: when the body of the vendor's response is an error report, the
    message is negatively acknowledged whatever the HTTP status code, 200
    included: the reason is the message of the report, without the code and
    without a final newline, and the type of the status event is the outcome
    mapper's tag of the reported code. *)
Theorem vendor_report_is_nacked config (message : gmap string value) mid
    params (http_code : Z) content ds msg tail :
  ensure_message_values message EXPECTED_MESSAGE_FIELDS = ∅ →
  message !! "message_id" = Some mid →
  get_send_params config message = Ok params →
  error_report content ds msg tail →
  handle_outbound_message config message
    (treq.Responds {| treq.code := http_code; treq.content := content |}) =
    (Ok tt,
     [issued config params;
      publish_nack mid mid (Some msg);
      add_status "outbound" "down"
        (get_send_fail_type (Some ("ERR-" +:+ ds))) (Some msg) None]).
Proof.
  intros Hvalid Hid Hparams Hrep.
  rewrite (outbound_fail_trace _ _ mid params) by
    (try assumption; cbn [treq.content];
     intros [_ Hcode]; cbn [treq.content] in Hcode;
     rewrite (get_send_status_report _ _ _ _ Hrep) in Hcode;
     discriminate Hcode).
  cbn [treq.content]. rewrite (get_send_status_report _ _ _ _ Hrep).
  reflexivity.
Qed.

(** X7: when the HTTP status code is not 200 and the body is not an
    error report, the message is negatively acknowledged with the whole body
    as the reason, and the status event has the fallback type
    [request_fail_unknown]. *)
Theorem http_error_without_report_is_nacked config
    (message : gmap string value) mid params (http_code : Z) content :
  ensure_message_values message EXPECTED_MESSAGE_FIELDS = ∅ →
  message !! "message_id" = Some mid →
  get_send_params config message = Ok params →
  http_code ≠ http.OK →
  SendStatus.code (get_send_status content) = None →
  handle_outbound_message config message
    (treq.Responds {| treq.code := http_code; treq.content := content |}) =
    (Ok tt,
     [issued config params;
      publish_nack mid mid (Some content);
      add_status "outbound" "down" "request_fail_unknown" (Some content)
        None]).
Proof.
  intros Hvalid Hid Hparams Hhttp Hcode.
  rewrite (outbound_fail_trace _ _ mid params) by
    (try assumption; intros [Hok _]; exact (Hhttp Hok)).
  cbn [treq.content]. rewrite (get_send_status_no_code _ Hcode).
  reflexivity.
Qed.

(** ** Every run of the inbound handler *)

Lemma respond_truthy message_id code (body : value) :
  truthy body = true →
  respond message_id code body =
    (Ok tt, [finish_request message_id (json_dumps body) code]).
Proof. intros Hbody. destruct body; try reflexivity. discriminate Hbody. Qed.

Lemma handle_raw_inbound_message_run message_id request field_values :
  inbound_run message_id
    (handle_raw_inbound_message message_id request field_values).
Proof.
  destruct field_values as [[vals errors]|e].
  - unfold handle_raw_inbound_message.
    destruct (truthy errors) eqn:Herrors.
    + unfold handle_bad_request_fields.
      rewrite (respond_truthy _ _ _ Herrors). apply run_refused.
    + unfold handle_inbound_message.
      destruct (get_message_dict message_id vals) as [fields|e];
        [apply run_published|apply run_raised].
  - destruct e; try apply run_raised. apply run_refused.
Qed.

(** X8: whenever the inbound handler returns, it has answered the HTTP
    request exactly once, under the request's own id: with 200 when it has
    published a bus message, which then comes first, and with 400 when it has
    published none; the answer is followed by exactly one health-status
    event, which ends the trace, and no call goes to the vendor. *)
Theorem inbound_answers_once message_id request field_values :
  fst (handle_raw_inbound_message message_id request field_values) = Ok tt →
  ∃ before body code status,
    trace_of (handle_raw_inbound_message message_id request field_values) =
      (before ++ [finish_request message_id body code; status])%list
    ∧ is_add_status status = true
    ∧ responses before = 0
    ∧ status_events before = 0
    ∧ (code = http.OK ∧ published before = 1
       ∨ code = http.BAD_REQUEST ∧ published before = 0)
    ∧ http_calls
        (trace_of
           (handle_raw_inbound_message message_id request field_values)) = 0.
Proof.
  intros Hok.
  destruct (handle_raw_inbound_message_run message_id request field_values)
    as [text args body type message details|fields|e].
  - exists [log_error text args], body, http.BAD_REQUEST,
      (add_status "inbound" "down" type message details).
    split_and!; try reflexivity. right. split; reflexivity.
  - exists [publish_message fields], (json_dumps (VDict ∅)), http.OK,
      (add_status "inbound" "ok" "request_success"
         (Some "Request successful") None).
    split_and!; try reflexivity. left. split; reflexivity.
  - discriminate Hok.
Qed.

Lemma inbound_answers_once_witness :
  ∃ before body code status,
    trace_of
      (handle_raw_inbound_message "req-1" sample_request
         (Ok (sample_vals, VDict ∅))) =
      (before ++ [finish_request "req-1" body code; status])%list
    ∧ is_add_status status = true
    ∧ responses before = 0
    ∧ status_events before = 0
    ∧ (code = http.OK ∧ published before = 1
       ∨ code = http.BAD_REQUEST ∧ published before = 0)
    ∧ http_calls
        (trace_of
           (handle_raw_inbound_message "req-1" sample_request
              (Ok (sample_vals, VDict ∅)))) = 0.
Proof.
  apply (inbound_answers_once "req-1" sample_request
           (Ok (sample_vals, VDict ∅))).
  vm_compute. reflexivity.
Defined.



(** X2: every health-status event of a unit of work names its own
    pipeline: the inbound handler only reports on the component [inbound],
    the outbound handler only on [outbound]. *)
Theorem status_component_matches_pipeline config (u : unit_of_work) :
  Forall (fun component => component = pipeline u)
    (status_components (trace_of (process config u))).
Proof.
  destruct u as [message_id request field_values|message reply];
    cbn [process pipeline].
  - destruct (handle_raw_inbound_message_run message_id request field_values);
      unfold trace_of; cbn [snd status_components omap list_omap];
      repeat constructor.
  - destruct (handle_outbound_message_run config message reply);
      unfold trace_of, issued; cbn [snd status_components omap list_omap];
      repeat constructor.
Qed.

(** ** The refusals of the inbound handler *)




(** ** Witnesses for the unhandled errors and the vendor failures *)

Lemma malformed_metadata_is_not_sent_witness :
  handle_outbound_message sample_config sample_message_bad_metadata
    (treq.Responds {| treq.code := 200; treq.content := "OK" |}) =
    (Raise AttributeError, []).
Proof.
  apply (malformed_metadata_is_not_sent sample_config
           sample_message_bad_metadata _
           (VStr "9292") (VStr "+27831234567") (VStr "hello")).
  - by_evaluation.
  - reflexivity.
  - reflexivity.
  - reflexivity.
  - eapply stuck_step; [reflexivity|discriminate|].
    eapply stuck_step; [reflexivity|discriminate|].
    apply stuck_here. intros d. discriminate.
Defined.

Lemma unhandled_send_error_propagates_witness :
  handle_outbound_message sample_config sample_message
    (treq.Fails (OtherError "ConnectionRefusedError")) =
    (Raise (OtherError "ConnectionRefusedError"),
     [issued sample_config sample_params]).
Proof.
  apply unhandled_send_error_propagates.
  - by_evaluation.
  - apply get_send_params_with_id;
      [reflexivity|reflexivity|reflexivity|reflexivity|discriminate].
  - reflexivity.
Defined.

Lemma missing_message_id_raises_after_send_witness :
  handle_outbound_message sample_config sample_message_no_id
    (treq.Responds {| treq.code := 200; treq.content := "OK" |}) =
    (Raise (KeyError "message_id"), [issued sample_config sample_params]).
Proof.
  apply missing_message_id_raises_after_send.
  - by_evaluation.
  - apply get_send_params_with_id;
      [reflexivity|reflexivity|reflexivity|reflexivity|discriminate].
  - reflexivity.
  - intros e He. discriminate He.
Defined.

Lemma vendor_report_is_nacked_witness :
  handle_outbound_message sample_config sample_message
    (treq.Responds
       {| treq.code := 500;
          treq.content :=
            "ERR-52 System error" +:+ String Re.newline "" |}) =
    (Ok tt,
     [issued sample_config sample_params;
      publish_nack (VStr "m-1") (VStr "m-1") (Some "System error");
      add_status "outbound" "down" "system_error" (Some "System error")
        None]).
Proof.
  apply (vendor_report_is_nacked sample_config sample_message (VStr "m-1")
           sample_params 500 _ "52" "System error" (String Re.newline "")).
  - by_evaluation.
  - reflexivity.
  - apply get_send_params_with_id;
      [reflexivity|reflexivity|reflexivity|reflexivity|discriminate].
  - split; [reflexivity|]. split; [discriminate|].
    split; [reflexivity|]. split; [reflexivity|]. right. reflexivity.
Defined.

Lemma http_error_without_report_is_nacked_witness :
  handle_outbound_message sample_config sample_message
    (treq.Responds
       {| treq.code := 500; treq.content := "Internal Server Error" |}) =
    (Ok tt,
     [issued sample_config sample_params;
      publish_nack (VStr "m-1") (VStr "m-1") (Some "Internal Server Error");
      add_status "outbound" "down" "request_fail_unknown"
        (Some "Internal Server Error") None]).
Proof.
  apply http_error_without_report_is_nacked.
  - by_evaluation.
  - reflexivity.
  - apply get_send_params_with_id;
      [reflexivity|reflexivity|reflexivity|reflexivity|discriminate].
  - discriminate.
  - vm_compute. reflexivity.
Defined.

(** ** The bus message of an inbound request *)

Lemma get_message_dict_Ok message_id (vals : gmap string value)
    sender receiver msgdata operator msgid :
  vals !! "sender" = Some sender →
  vals !! "receiver" = Some receiver →
  vals !! "msgdata" = Some msgdata →
  vals !! "operator" = Some operator →
  vals !! "msgid" = Some msgid →
  get_message_dict message_id vals =
    Ok {[ "message_id" := VStr message_id;
          "from_addr" := sender;
          "from_addr_type" := VStr "msisdn";
          "to_addr" := receiver;
          "content" := msgdata;
          "provider" := operator;
          "transport_type" := VStr transport_type;
          "transport_metadata" :=
            VDict {[ "vas2nets_sms" := VDict {[ "msgid" := msgid ]} ]} ]}.
Proof.
  intros Hs Hr Hd Ho Hi. unfold get_message_dict, getitem.
  rewrite Hs, Hr, Hd, Ho, Hi. reflexivity.
Qed.

(** X12: [get_message_dict] builds the bus message exactly when the
    values [sender], [receiver], [msgdata], [operator] and [msgid] are all
    there; otherwise it raises [KeyError] for the first of them, in this
    order, that is missing.  It does not need [recvtime]. *)
Theorem get_message_dict_needs message_id (vals : gmap string value) :
  ((∃ fields, get_message_dict message_id vals = Ok fields) ↔
   Forall (fun key => is_Some (vals !! key)) message_dict_fields)
  ∧ (∀ e, get_message_dict message_id vals = Raise e →
          ∃ before key after,
            message_dict_fields = (before ++ key :: after)%list
            ∧ Forall (fun k => is_Some (vals !! k)) before
            ∧ vals !! key = None
            ∧ e = KeyError key).
Proof.
  unfold get_message_dict, getitem, message_dict_fields.
  destruct (vals !! "sender") as [sender|] eqn:Hs.
  2:{ split.
      - split; [intros [fields [=]]|].
        intros Hall. apply Forall_cons in Hall as [[? Hsome] _].
        rewrite Hs in Hsome. discriminate Hsome.
      - intros e [= <-]. exists [], "sender", ["receiver"; "msgdata"; "operator"; "msgid"].
        split_and!; [reflexivity|constructor|exact Hs|reflexivity]. }
  destruct (vals !! "receiver") as [receiver|] eqn:Hr.
  2:{ split.
      - split; [intros [fields [=]]|].
        intros Hall. apply Forall_cons in Hall as [_ Hall].
        apply Forall_cons in Hall as [[? Hsome] _].
        rewrite Hr in Hsome. discriminate Hsome.
      - intros e [= <-]. exists ["sender"], "receiver", ["msgdata"; "operator"; "msgid"].
        split_and!; [reflexivity| |exact Hr|reflexivity].
        repeat constructor. rewrite Hs. by eexists. }
  destruct (vals !! "msgdata") as [msgdata|] eqn:Hd.
  2:{ split.
      - split; [intros [fields [=]]|].
        intros Hall. do 2 apply Forall_cons in Hall as [_ Hall].
        apply Forall_cons in Hall as [[? Hsome] _].
        rewrite Hd in Hsome. discriminate Hsome.
      - intros e [= <-]. exists ["sender"; "receiver"], "msgdata", ["operator"; "msgid"].
        split_and!; [reflexivity| |exact Hd|reflexivity].
        repeat constructor; [rewrite Hs|rewrite Hr]; by eexists. }
  destruct (vals !! "operator") as [operator|] eqn:Ho.
  2:{ split.
      - split; [intros [fields [=]]|].
        intros Hall. do 3 apply Forall_cons in Hall as [_ Hall].
        apply Forall_cons in Hall as [[? Hsome] _].
        rewrite Ho in Hsome. discriminate Hsome.
      - intros e [= <-]. exists ["sender"; "receiver"; "msgdata"], "operator", ["msgid"].
        split_and!; [reflexivity| |exact Ho|reflexivity].
        repeat constructor; [rewrite Hs|rewrite Hr|rewrite Hd]; by eexists. }
  destruct (vals !! "msgid") as [msgid|] eqn:Hi.
  2:{ split.
      - split; [intros [fields [=]]|].
        intros Hall. do 4 apply Forall_cons in Hall as [_ Hall].
        apply Forall_cons in Hall as [[? Hsome] _].
        rewrite Hi in Hsome. discriminate Hsome.
      - intros e [= <-]. exists ["sender"; "receiver"; "msgdata"; "operator"], "msgid", [].
        split_and!; [reflexivity| |exact Hi|reflexivity].
        repeat constructor; [rewrite Hs|rewrite Hr|rewrite Hd|rewrite Ho];
          by eexists. }
  split.
  - split; [|intros _; eexists; reflexivity].
    intros _.
    repeat constructor;
      [rewrite Hs|rewrite Hr|rewrite Hd|rewrite Ho|rewrite Hi]; by eexists.
  - intros e [=].
Qed.

(** X13: [get_message_dict] reads nothing but its five values: setting
    or removing any other entry of the values, [recvtime] among them, changes
    neither the bus message nor the error. *)
Theorem get_message_dict_ignores_other_fields message_id
    (vals : gmap string value) (key : string) (v : value) :
  key ∉ message_dict_fields →
  get_message_dict message_id (<[key := v]> vals) =
    get_message_dict message_id vals
  ∧ get_message_dict message_id (delete key vals) =
      get_message_dict message_id vals.
Proof.
  intros Hother.
  assert (∀ k, k ∈ message_dict_fields → key ≠ k) as Hne
    by (intros k Hk ->; exact (Hother Hk)).
  assert (∀ k, k ∈ message_dict_fields →
               <[key := v]> vals !! k = vals !! k
               ∧ delete key vals !! k = vals !! k) as Hsame.
  { intros k Hk. split.
    - apply lookup_insert_ne. by apply Hne.
    - apply lookup_delete_ne. by apply Hne. }
  unfold get_message_dict, getitem.
  destruct (Hsame "sender") as [-> ->]; [repeat constructor|].
  destruct (Hsame "receiver") as [-> ->]; [repeat constructor|].
  destruct (Hsame "msgdata") as [-> ->]; [repeat constructor|].
  destruct (Hsame "operator") as [-> ->]; [repeat constructor|].
  destruct (Hsame "msgid") as [-> ->]; [repeat constructor|].
  split; reflexivity.
Qed.

Lemma get_message_dict_ignores_other_fields_witness :
  get_message_dict "req-1" (delete "recvtime" sample_vals) =
    get_message_dict "req-1" sample_vals.
Proof.
  apply (get_message_dict_ignores_other_fields "req-1" sample_vals
           "recvtime" VNone).
  by_evaluation.
Defined.

(** ** From the inbound message to the parameters of the reply *)

Lemma get_in_metadata (message : gmap string value) (msgid : value) :
  message !! "transport_metadata" =
    Some (VDict {[ "vas2nets_sms" := VDict {[ "msgid" := msgid ]} ]}) →
  get_in (VDict message) msgid_path = Ok msgid.
Proof.
  intros Hmeta. destruct (is_VNone msgid) as [->|Hnn].
  - apply get_in_breaks.
    eapply breaks_step; [exact Hmeta|discriminate|].
    eapply breaks_step; [apply lookup_singleton_eq|discriminate|].
    apply breaks_null. apply lookup_singleton_eq.
  - apply get_in_reaches.
    eapply reaches_step; [exact Hmeta|discriminate|].
    eapply reaches_step; [apply lookup_singleton_eq|discriminate|].
    eapply reaches_step; [apply lookup_singleton_eq|exact Hnn|].
    apply reaches_here.
Qed.

(** X14: the vendor message id of an inbound request comes back as the
    [message_id] parameter of a send.  When the bus message built from the
    inbound values is answered by a message that carries the same transport
    metadata, the parameters of the send hold the inbound [msgid] as
    [message_id]; when the inbound [msgid] is [None], they hold no
    [message_id]. *)
Theorem inbound_msgid_reaches_outbound_params config message_id
    (vals fields message : gmap string value) msgid from_addr to_addr
    content :
  get_message_dict message_id vals = Ok fields →
  vals !! "msgid" = Some msgid →
  message !! "transport_metadata" = fields !! "transport_metadata" →
  message !! "from_addr" = Some from_addr →
  message !! "to_addr" = Some to_addr →
  message !! "content" = Some content →
  get_send_params config message =
    Ok (match msgid with
        | VNone => fixed_params config from_addr to_addr content
        | _ =>
            <["message_id" := msgid]>
              (fixed_params config from_addr to_addr content)
        end).
Proof.
  intros Hdict Hmsgid Hmeta Hf Ht Hc.
  assert (get_in (VDict message) msgid_path = Ok msgid) as Hid.
  { apply get_in_metadata. rewrite Hmeta. clear Hmeta.
    revert Hdict. unfold get_message_dict, getitem. rewrite Hmsgid.
    destruct (vals !! "sender"); [|intros [=]].
    destruct (vals !! "receiver"); [|intros [=]].
    destruct (vals !! "msgdata"); [|intros [=]].
    destruct (vals !! "operator"); [|intros [=]].
    intros [= <-]. reflexivity. }
  destruct (is_VNone msgid) as [->|Hnn].
  - by apply get_send_params_without_id.
  - rewrite (get_send_params_with_id _ _ _ _ _ _ Hf Ht Hc Hid Hnn).
    by destruct msgid.
Qed.

Lemma inbound_msgid_reaches_outbound_params_witness :
  get_send_params sample_config sample_published =
    Ok (<["message_id" := VStr "7"]>
          (fixed_params sample_config (VStr "+27831234567") (VStr "9292")
             (VStr "hello"))).
Proof.
  apply (inbound_msgid_reaches_outbound_params sample_config "req-1"
           sample_vals sample_published sample_published (VStr "7")).
  - apply get_message_dict_Ok; reflexivity.
  - reflexivity.
  - reflexivity.
  - reflexivity.
  - reflexivity.
  - reflexivity.
Defined.

(** ** When the parameters can be built *)

(** X15: [get_send_params] returns parameters exactly when the message
    has its [from_addr], [to_addr] and [content] entries and no value on the
    way to the vendor message id is something other than a mapping or
    [None]; otherwise it raises. *)
Theorem get_send_params_succeeds_iff config (message : gmap string value) :
  (∃ params, get_send_params config message = Ok params) ↔
  is_Some (message !! "from_addr")
  ∧ is_Some (message !! "to_addr")
  ∧ is_Some (message !! "content")
  ∧ ¬ stuck (VDict message) msgid_path.
Proof.
  split.
  - intros [params Hparams]. revert Hparams.
    unfold get_send_params, getitem.
    destruct (message !! "from_addr") as [from_addr|]; [|intros [=]].
    destruct (message !! "to_addr") as [to_addr|]; [|intros [=]].
    destruct (message !! "content") as [content|]; [|intros [=]].
    cbn [mbind result_bind].
    change ["transport_metadata"; "vas2nets_sms"; "msgid"] with msgid_path.
    intros Hparams. split_and!; try (by eexists).
    intros Hs. rewrite (get_in_stuck _ _ Hs) in Hparams.
    discriminate Hparams.
  - intros ([from_addr Hf] & [to_addr Ht] & [content Hc] & Hns).
    destruct (get_in_cases (VDict message) msgid_path) as [[id Hr]|[Hb|Hs]];
      [| |destruct (Hns Hs)].
    + eexists. apply (get_send_params_with_id _ _ _ _ _ id Hf Ht Hc).
      * by apply get_in_reaches.
      * by eapply reaches_not_none.
    + eexists. apply (get_send_params_without_id _ _ _ _ _ Hf Ht Hc).
      by apply get_in_breaks.
Qed.

(** X16: the parameters that [get_send_params] returns have the five
    entries [username], [password], [sender], [receiver] and [message], and
    at most one more, [message_id], whose value is never [None]. *)
Theorem get_send_params_keys config (message params : gmap string value) :
  get_send_params config message = Ok params →
  params !! "message_id" ≠ Some VNone
  ∧ (dom params =
       {[ "username"; "password"; "sender"; "receiver"; "message" ]}
     ∨ dom params =
         {[ "message_id"; "username"; "password"; "sender"; "receiver";
            "message" ]}).
Proof.
  unfold get_send_params, getitem.
  destruct (message !! "from_addr") as [from_addr|]; [|intros [=]].
  destruct (message !! "to_addr") as [to_addr|]; [|intros [=]].
  destruct (message !! "content") as [content|]; [|intros [=]].
  cbn [mbind result_bind].
  destruct (get_in _ _) as [id|e]; [|intros [=]].
  assert (dom ({[ "username" := VStr (username config);
                  "password" := VStr (password config);
                  "sender" := from_addr;
                  "receiver" := to_addr;
                  "message" := content ]} : gmap string value) =
          {[ "username"; "password"; "sender"; "receiver"; "message" ]})
    as Hdom by (rewrite !dom_insert_L, dom_singleton_L; reflexivity).
  destruct id; intros [= <-];
    (split;
     [first [rewrite lookup_insert_eq; discriminate
            |rewrite !lookup_insert_ne by discriminate;
             rewrite lookup_singleton_ne by discriminate; discriminate]
     |first [left; exact Hdom
            |right; rewrite dom_insert_L, Hdom; reflexivity]]).
Qed.

Lemma get_send_params_keys_witness :
  sample_params !! "message_id" ≠ Some VNone
  ∧ (dom sample_params =
       {[ "username"; "password"; "sender"; "receiver"; "message" ]}
     ∨ dom sample_params =
         {[ "message_id"; "username"; "password"; "sender"; "receiver";
            "message" ]}).
Proof.
  apply (get_send_params_keys sample_config sample_message).
  apply get_send_params_with_id;
    [reflexivity|reflexivity|reflexivity|reflexivity|discriminate].
Defined.

(** ** The table of failure types *)

Lemma SEND_FAIL_TYPES_entry (c tag : string) :
  SEND_FAIL_TYPES !! c = Some tag → (c, tag) ∈ vendor_conditions.
Proof. apply (elem_of_list_to_map_2 (M := gmap string)). Qed.

(** X17: the type [request_fail_unknown] is given exactly to the codes
    that the table does not hold, [None] among them: no entry of the table
    has this tag.  The tags of the table are distinct, so the type of a known
    failure tells which code the vendor reported. *)
Theorem get_send_fail_type_unknown_iff :
  (∀ code,
     get_send_fail_type code = "request_fail_unknown" ↔
     ∀ c, code = Some c → SEND_FAIL_TYPES !! c = None)
  ∧ (∀ c1 c2 tag,
       SEND_FAIL_TYPES !! c1 = Some tag → SEND_FAIL_TYPES !! c2 = Some tag →
       c1 = c2).
Proof.
  split.
  - intros code. unfold get_send_fail_type. split.
    + intros Htag c ->. cbn [mbind option_bind] in Htag.
      destruct (SEND_FAIL_TYPES !! c) as [tag|] eqn:Hc; [|reflexivity].
      cbn [default] in Htag. simpl in Htag. subst tag.
      apply SEND_FAIL_TYPES_entry in Hc. unfold vendor_conditions in Hc.
      repeat (apply elem_of_cons in Hc as [Hc|Hc]; [discriminate Hc|]).
      by apply elem_of_nil in Hc.
    + intros Hnone. destruct code as [c|]; [|reflexivity].
      cbn [mbind option_bind]. rewrite (Hnone c eq_refl). reflexivity.
  - intros c1 c2 tag H1 H2.
    apply SEND_FAIL_TYPES_entry in H1, H2. unfold vendor_conditions in H1, H2.
    repeat (apply elem_of_cons in H1 as [H1|H1];
      [injection H1 as -> ->;
       repeat (apply elem_of_cons in H2 as [H2|H2];
         [first [discriminate H2|injection H2 as ->; reflexivity]|]);
       by apply elem_of_nil in H2|]).
    by apply elem_of_nil in H1.
Qed.

(** ** Paths in two steps *)

(** X18: looking up a path is looking up its first part and then the
    rest from the value found: [get_in] over the keys [ks1 ++ ks2] is [get_in]
    over [ks2] from the result of [get_in] over [ks1], where a result [None]
    of the first part, and an exception, end the lookup.  (With no keys in
    the first part the data themselves must not be [None].) *)
Theorem get_in_app (data : value) (ks1 ks2 : list string) :
  ks1 ≠ [] ∨ data ≠ VNone →
  get_in data (ks1 ++ ks2) =
    match get_in data ks1 with
    | Ok VNone => Ok VNone
    | Ok found => get_in found ks2
    | Raise e => Raise e
    end.
Proof.
  revert data. induction ks1 as [|key ks1 IH]; intros data Hstart.
  - destruct Hstart as [Hne|Hnn]; [done|]. cbn [app get_in].
    by destruct data.
  - cbn [app get_in]. destruct (get data key) as [found|e]; [|reflexivity].
    destruct (is_VNone found) as [->|Hnn]; [reflexivity|].
    specialize (IH found (or_intror Hnn)).
    destruct found; try done.
Qed.

Lemma get_in_app_witness :
  get_in (VDict sample_message) msgid_path =
    get_in (VDict {[ "vas2nets_sms" := VDict {[ "msgid" := VStr "7" ]} ]})
      ["vas2nets_sms"; "msgid"].
Proof.
  refine (eq_trans (get_in_app (VDict sample_message)
                      ["transport_metadata"] ["vas2nets_sms"; "msgid"] _) _).
  - left. discriminate.
  - reflexivity.
Defined.

(** ** Reports of more than one line *)

Lemma parse_error_more_lines (content ds msg extra : string) :
  error_report content ds msg "" → extra ≠ "" →
  parse_error (content +:+ String Re.newline extra) = None.
Proof.
  intros (-> & Hne & Hds & Hmsg & _) Hextra. unfold parse_error.
  rewrite !string_app_assoc.
  change ("" +:+ String Re.newline extra) with (String Re.newline extra).
  rewrite (proj2 (strip_prefix_Some "ERR-" _ _) eq_refl).
  rewrite (span_unique _ ds _ Hds) by reflexivity. cbn [fst snd].
  destruct ds as [|d ds]; [destruct (Hne eq_refl)|].
  change (" " +:+ msg +:+ String Re.newline extra)
    with (String " " (msg +:+ String Re.newline extra)).
  cbv beta iota.
  rewrite (span_unique _ msg _ Hmsg) by reflexivity. cbn [fst snd].
  destruct extra as [|c extra]; [destruct (Hextra eq_refl)|].
  reflexivity.
Qed.

(** X19: an error report followed by further lines is not recognised:
    the message of the pattern cannot hold a newline and only one final
    newline may follow it, so the body is classified with a null code and the
    whole body as the message, and with the HTTP code 200 the message is
    acknowledged. *)
Theorem report_with_more_lines_is_acknowledged config
    (message : gmap string value) mid params content ds msg extra :
  ensure_message_values message EXPECTED_MESSAGE_FIELDS = ∅ →
  message !! "message_id" = Some mid →
  get_send_params config message = Ok params →
  error_report content ds msg "" →
  extra ≠ "" →
  get_send_status (content +:+ String Re.newline extra) =
    {| SendStatus.code := None;
       SendStatus.message := Some (content +:+ String Re.newline extra) |}
  ∧ handle_outbound_message config message
      (treq.Responds
         {| treq.code := http.OK;
            treq.content := content +:+ String Re.newline extra |}) =
      (Ok tt,
       [issued config params;
        publish_ack mid mid;
        add_status "outbound" "ok" "request_success"
          (Some "Request successful") None]).
Proof.
  intros Hvalid Hid Hparams Hrep Hextra.
  assert (get_send_status (content +:+ String Re.newline extra) =
    {| SendStatus.code := None;
       SendStatus.message := Some (content +:+ String Re.newline extra) |})
    as Hstatus.
  { rewrite get_send_status_parse.
    rewrite (parse_error_more_lines _ _ _ _ Hrep Hextra). reflexivity. }
  split; [exact Hstatus|].
  apply outbound_success_trace; try assumption.
  split; [reflexivity|]. cbn [treq.content]. rewrite Hstatus. reflexivity.
Qed.

Lemma report_with_more_lines_is_acknowledged_witness :
  get_send_status
    ("ERR-41 Insufficient credit" +:+ String Re.newline "Top up") =
    {| SendStatus.code := None;
       SendStatus.message :=
         Some ("ERR-41 Insufficient credit" +:+ String Re.newline "Top up") |}.
Proof.
  refine (proj1 (report_with_more_lines_is_acknowledged sample_config
    sample_message (VStr "m-1") sample_params "ERR-41 Insufficient credit"
    "41" "Insufficient credit" "Top up" _ _ _ _ _)).
  - by_evaluation.
  - reflexivity.
  - apply get_send_params_with_id;
      [reflexivity|reflexivity|reflexivity|reflexivity|discriminate].
  - split; [reflexivity|]. split; [discriminate|].
    split; [reflexivity|]. split; [reflexivity|]. left. reflexivity.
  - discriminate.
Defined.

(** ** The query of the vendor request *)

Lemma send_message_trace config (message params : gmap string value) reply :
  get_send_params config message = Ok params →
  trace_of (send_message config message reply) = [issued config params].
Proof.
  intros Hparams. unfold send_message. rewrite Hparams.
  destruct reply as [e|resp]; reflexivity.
Qed.

Lemma handle_outbound_message_calls config (message params : gmap string value)
    reply :
  ensure_message_values message EXPECTED_MESSAGE_FIELDS = ∅ →
  get_send_params config message = Ok params →
  List.filter is_treq_get
    (trace_of (handle_outbound_message config message reply)) =
    [issued config params].
Proof.
  intros Hvalid Hparams.
  rewrite (handle_outbound_message_issues _ _ _ _ Hvalid Hparams).
  destruct (message !! "message_id") as [mid|] eqn:Hid.
  - destruct reply as [e|resp].
    + destruct (is_send_timeout e); [|reflexivity].
      rewrite (handle_send_timeout_trace _ _ Hid). reflexivity.
    + cbv zeta. destruct (bool_decide _ && bool_decide _).
      * rewrite (handle_outbound_success_trace _ _ Hid). reflexivity.
      * rewrite (handle_outbound_fail_trace _ _ _ Hid). reflexivity.
  - destruct reply as [e|resp].
    + destruct (is_send_timeout e); [|reflexivity].
      rewrite (handle_send_timeout_no_id _ Hid). reflexivity.
    + cbv zeta. destruct (bool_decide _ && bool_decide _).
      * rewrite (handle_outbound_success_no_id _ Hid). reflexivity.
      * rewrite (handle_outbound_fail_no_id _ _ Hid). reflexivity.
Qed.

(** C5: for an outbound message that has its [from_addr], [to_addr] and
    [content] and whose metadata are nested mappings, [send_message] makes
    one HTTP request, to the configured URL with the configured timeout, and
    the outbound handler makes no request with other query parameters (and
    makes this one when the message passes the validation).  The query
    parameters always hold [username], [password], [sender] (the
    [from_addr]), [receiver] (the [to_addr]) and [message] (the [content]);
    they hold [message_id], equal to the vendor message id of the metadata,
    if and only if that nested value is present, and omit it when a level of
    the nesting is absent or null. *)
Theorem vendor_request_query config (message : gmap string value) reply
    from_addr to_addr content :
  message !! "from_addr" = Some from_addr →
  message !! "to_addr" = Some to_addr →
  message !! "content" = Some content →
  ¬ stuck (VDict message) msgid_path →
  ∃ params : gmap string value,
    trace_of (send_message config message reply) =
      [treq_get (outbound_url config) params
         (outbound_request_timeout config)]
    ∧ (∀ url sent timeout,
         treq_get url sent timeout
           ∈ trace_of (handle_outbound_message config message reply) →
         url = outbound_url config ∧ sent = params
         ∧ timeout = outbound_request_timeout config)
    ∧ (ensure_message_values message EXPECTED_MESSAGE_FIELDS = ∅ →
       List.filter is_treq_get
         (trace_of (handle_outbound_message config message reply)) =
         [treq_get (outbound_url config) params
            (outbound_request_timeout config)])
    ∧ params !! "username" = Some (VStr (username config))
    ∧ params !! "password" = Some (VStr (password config))
    ∧ params !! "sender" = Some from_addr
    ∧ params !! "receiver" = Some to_addr
    ∧ params !! "message" = Some content
    ∧ (∀ id, reaches (VDict message) msgid_path id →
             params !! "message_id" = Some id)
    ∧ (breaks (VDict message) msgid_path → params !! "message_id" = None)
    ∧ (is_Some (params !! "message_id") ↔
       ∃ id, reaches (VDict message) msgid_path id).
Proof.
  intros Hf Ht Hc Hns.
  destruct (get_send_params_query config message from_addr to_addr content
              Hf Ht Hc Hns) as (params & Hparams & Hquery).
  exists params. split; [exact (send_message_trace _ _ _ _ Hparams)|].
  split; [|split; [|exact Hquery]].
  - intros url sent timeout Hin.
    destruct (decide (ensure_message_values message EXPECTED_MESSAGE_FIELDS
                      = ∅)) as [Hvalid|Hmissing].
    + assert (In (treq_get url sent timeout)
                (List.filter is_treq_get
                   (trace_of
                      (handle_outbound_message config message reply))))
        as Hcall.
      { apply filter_In. split; [|reflexivity].
        apply list_elem_of_In. exact Hin. }
      rewrite (handle_outbound_message_calls _ _ _ _ Hvalid Hparams) in Hcall.
      destruct Hcall as [Hcall|[]]. unfold issued in Hcall.
      injection Hcall as <- <- <-. split_and!; reflexivity.
    + rewrite (handle_outbound_message_rejects _ _ _ Hmissing) in Hin.
      unfold trace_of in Hin. cbn [snd] in Hin.
      apply list_elem_of_In in Hin. destruct Hin as [Hin|[]].
      discriminate Hin.
  - intros Hvalid.
    exact (handle_outbound_message_calls _ _ _ _ Hvalid Hparams).
Qed.

Lemma vendor_request_query_witness :
  ∃ params : gmap string value,
    trace_of
      (send_message sample_config sample_message
         (treq.Responds {| treq.code := 200; treq.content := "OK" |})) =
      [treq_get "http://vendor.example/send" params (Some 30%Z)]
    ∧ params !! "username" = Some (VStr "user")
    ∧ params !! "password" = Some (VStr "secret")
    ∧ params !! "sender" = Some (VStr "9292")
    ∧ params !! "receiver" = Some (VStr "+27831234567")
    ∧ params !! "message" = Some (VStr "hello")
    ∧ params !! "message_id" = Some (VStr "7").
Proof.
  assert (¬ stuck (VDict sample_message) msgid_path) as Hns.
  { intros Hs. apply get_in_stuck in Hs. discriminate Hs. }
  destruct (vendor_request_query sample_config sample_message
    (treq.Responds {| treq.code := 200; treq.content := "OK" |})
    (VStr "9292") (VStr "+27831234567") (VStr "hello")
    eq_refl eq_refl eq_refl Hns)
    as (params & Hrun & _ & _ & Hu & Hp & Hs & Hr & Hm & Hid & _).
  exists params. repeat split; try assumption.
  apply Hid.
  do 3 lookup_step. apply reaches_here.
Defined.
